(** * Sprite kernel bootstrap: [main] and [Init] of kernel/init/init_main.c

    A shallow embedding of the two functions of init_main.c.  Both are
    straight-line C with one counted loop each; they are written here in a
    small monad that threads the function's local variables, collects the
    externally visible events (calls into other kernel modules, console
    output, stores into the local arrays) and stops at the calls that do
    not return. *)

From Stdlib Require Import ZArith String Ascii List Lia.
From stdpp Require Import base numbers list strings.

Local Open Scope string_scope.
Local Open Scope list_scope.
Local Open Scope Z_scope.

(** ** Values *)

(** [ReturnStatus] is an [int]; [SUCCESS] is zero. *)
Definition ReturnStatus := Z.
Definition SUCCESS : ReturnStatus := 0.

(** The arrays local to [Init]. *)
Inductive array := A_initArgs | A_argBuffer | A_bootCommand.

(** The [char *] values [Init] handles.  [NIL] is Sprite's end marker,
    [Lit s] the address of a constant string, [ArgBuffer_at off] is
    [argBuffer + off], [BootCommand] is [bootCommand], [Undef] the content
    of a stack slot that was never written. *)
Inductive charp :=
| NIL
| Lit (s : string)
| ArgBuffer_at (off : Z)
| BootCommand
| Undef.

(** What the rest of the kernel can observe of [main] and [Init]. *)
Inductive event :=
| Call (f : string)                        (* f(); the result is dropped *)
| Incr (var : string)                      (* var++ *)
| MonPrintf (fmt : string)
| Printf (fmt : string)
| CallFunc (f : string)                    (* Proc_CallFunc(f, NIL, 0) *)
| CreateServer                             (* Rpc_CreateServer(&pid) *)
| NewProc (entry name : string)            (* Proc_NewProc(entry, PROC_KERNEL, FALSE, &pid, name, FALSE) *)
| ServerProcCreate (n : Z)                 (* Proc_ServerProcCreate(n) *)
| WaitTime (t : string)                    (* Sync_WaitTime(t) *)
| GetBootArgs (argc bufferSize : Z)        (* Mach_GetBootArgs(argc, bufferSize, ..) *)
| Store (a : array) (i : Z)                (* a[i] = .. *)
| Execing (path : charp)                   (* printf: Execing <path> *)
| KernExec (path : charp) (argv : list charp)
                                           (* Proc_KernExec(path, argv) *)
| CouldNotExec (path : charp) (status : ReturnStatus)
                                           (* printf: Init: Could not exec <path> status <status> *)
| Open (path : string)                     (* Fs_Open(path, FS_EXECUTE | FS_FOLLOW, FS_FILE, 0, &dummy) *)
| CantOpen (path : string) (status : ReturnStatus)
                                           (* printf: Can't open <path> <status> *)
| Exit (status : Z).                       (* Proc_Exit(status) *)

#[global] Instance array_eq_dec : EqDecision array.
Proof. solve_decision. Defined.
#[global] Instance charp_eq_dec : EqDecision charp.
Proof. solve_decision. Defined.
#[global] Instance event_eq_dec : EqDecision event.
Proof. solve_decision. Defined.

(** ** The environment of the two functions

    Everything init_main.c takes from other files: configuration
    constants and globals, what the called routines return, and the boot
    arguments the monitor left behind. *)
Record World := {
  INIT : string;                                   (* the INIT macro *)
  main_AltInit : option string;                    (* None: the pointer is 0 *)
  main_NumRpcServers : Z;
  FSCACHE_MAX_CLEANER_PROCS : Z;
  VM_MAX_PAGE_OUT_PROCS : Z;
  collaborator : string -> ReturnStatus;           (* result of each module entry point *)
  Proc_KernExec_result : charp -> option ReturnStatus;
                                                   (* None: the image was replaced *)
  Fs_Open_result : string -> ReturnStatus;
  boot_fragments : list string;                    (* the monitor's boot arguments *)
  argBuffer_addr : Z                               (* the address of Init's argBuffer *)
}.

(** ** The monad *)

(** Why a function stopped before its last statement. *)
Inductive halt :=
| Exited (status : Z)                 (* Proc_Exit *)
| Replaced                            (* Proc_KernExec succeeded *)
| OutOfBounds (a : array) (i : Z)     (* an access outside a local array *)
| BadPointer (p : charp).             (* a dereference or cast with no defined value *)

Inductive res (A : Type) :=
| Ret (a : A)
| Halt (h : halt).
Arguments Ret {A} a.
Arguments Halt {A} h.

(** A computation over locals [L]: result, new locals, events emitted. *)
Definition M (L A : Type) : Type := L -> res A * L * list event.

Definition ret {L A} (a : A) : M L A := fun l => (Ret a, l, []).

Definition bind {L A B} (m : M L A) (k : A -> M L B) : M L B :=
  fun l =>
    match m l with
    | (Ret a, l1, t1) =>
        match k a l1 with
        | (r, l2, t2) => (r, l2, t1 ++ t2)
        end
    | (Halt h, l1, t1) => (Halt h, l1, t1)
    end.

#[global] Instance M_ret {L} : MRet (M L) := @ret L.
#[global] Instance M_bind {L} : MBind (M L) := fun A B k m => bind m k.

Definition emit {L} (e : event) : M L unit := fun l => (Ret tt, l, [e]).
Definition stop {L A} (h : halt) : M L A := fun l => (Halt h, l, []).
Definition get {L} : M L L := fun l => (Ret l, l, []).
Definition put {L} (l : L) : M L unit := fun _ => (Ret tt, l, []).

(** A call of a module entry point: the event, and what it returned. *)
Definition call {L} (w : World) (f : string) : M L ReturnStatus :=
  emit (Call f) ;; ret (collaborator w f).

(** [for (i = lo; i < hi; i++) body] where [body] assigns neither [i] nor
    [hi]: [hi - lo] rounds when that is positive, none otherwise. *)
Fixpoint for_loop {L} (n : nat) (i : Z) (body : Z -> M L unit) : M L unit :=
  match n with
  | O => ret tt
  | S n' => body i ;; for_loop n' (i + 1) body
  end.

Definition for_ {L} (lo hi : Z) (body : Z -> M L unit) : M L unit :=
  for_loop (Z.to_nat (hi - lo)) lo body.

Definition when {L} (b : bool) (m : M L unit) : M L unit :=
  if b then m else ret tt.

(** The events of a run. *)
Definition trace {L A} (m : M L A) (l : L) : list event := (m l).2.
Definition result {L A} (m : M L A) (l : L) : res A := (m l).1.1.
Definition final {L A} (m : M L A) (l : L) : L := (m l).1.2.

(** An [int] is 32 bits wide, two's complement: the value of an [int]
    expression is its mathematical value brought back into that range. *)
Definition to_int (z : Z) : Z := (z + 2 ^ 31) mod 2 ^ 32 - 2 ^ 31.

(** ** [main] *)

Definition Proc_Exit {L A} (status : Z) : M L A :=
  emit (Exit status) ;; stop (Exited status).

Definition main (w : World) : M unit unit :=
  call w "Main_InitVars" ;;
  call w "Mach_Init" ;;
  call w "Sync_Init" ;;
  call w "Dbg_Init" ;;
  emit (MonPrintf "Sprite kernel for %s Built on %s at %s") ;;
  call w "Sys_Init" ;;
  call w "Vm_BootInit" ;;
  call w "Dev_Init" ;;
  call w "Dump_Init" ;;
  call w "Proc_Init" ;;
  call w "Sync_LockStatInit" ;;
  call w "Timer_Init" ;;
  call w "Sig_Init" ;;
  call w "Sched_Init" ;;
  emit (Incr "main_PanicOK") ;;
  call w "SpriteVersion" ;;
  emit (Printf "Sprite kernel: %s") ;;
  call w "Fs_Bin" ;;
  call w "Net_Bin" ;;
  call w "Vm_Init" ;;
  call w "Proc_InitMainProc" ;;
  call w "Net_Init" ;;
  call w "Net_RouteInit" ;;
  call w "Proc_ServerInit" ;;
  call w "Recov_Init" ;;
  call w "Rpc_Init" ;;
  call w "Dev_Config" ;;
  call w "Prof_Init" ;;
  call w "Mach_MonStartNmi" ;;
  call w "ENABLE_INTR" ;;
  call w "Fsrecov_InitState" ;;
  call w "Fsrecov_DirOpInit" ;;
  call w "Sched_TimeTicks" ;;
  call w "Prof_Start" ;;
  call w "Rpc_Start" ;;
  call w "Fs_Init" ;;
  call w "Fs_ProcInit" ;;
  emit (CallFunc "Vm_Clock") ;;
  emit (CallFunc "Vm_OpenSwapDirectory") ;;
  emit (CallFunc "Fsutil_SyncProc") ;;
  when (main_NumRpcServers w >? 0)
    (for_ 0 (main_NumRpcServers w) (fun _ => emit CreateServer)) ;;
  emit (NewProc "Rpc_Daemon" "Rpc_Daemon") ;;
  emit (ServerProcCreate (to_int (FSCACHE_MAX_CLEANER_PROCS w + VM_MAX_PAGE_OUT_PROCS w))) ;;
  emit (NewProc "Recov_Proc" "Recov_Proc") ;;
  call w "Proc_MigInit" ;;
  call w "Main_HookRoutine" ;;
  emit (Printf "MEMORY %d bytes allocated for kernel") ;;
  emit (NewProc "Init" "Init") ;;
  emit (WaitTime "time_OneYear") ;;
  emit (MonPrintf "Leaving main()") ;;
  Proc_Exit 0.

(** ** [Init] *)

Definition NUL : ascii := "000"%char.
Definition SPACE : ascii := " "%char.

(** The locals of [Init] that hold data: the three arrays, and [ptr], kept
    as its offset from [bootCommand]. *)
Record locals := {
  initArgs : list charp;      (* char *initArgs[10] *)
  argBuffer : list ascii;     (* char argBuffer[100] *)
  bootCommand : list ascii;   (* char bootCommand[103] *)
  ptr : Z                     (* char *ptr *)
}.

Definition set_initArgs (v : list charp) (l : locals) : locals :=
  {| initArgs := v; argBuffer := argBuffer l; bootCommand := bootCommand l; ptr := ptr l |}.
Definition set_argBuffer (v : list ascii) (l : locals) : locals :=
  {| initArgs := initArgs l; argBuffer := v; bootCommand := bootCommand l; ptr := ptr l |}.
Definition set_bootCommand (v : list ascii) (l : locals) : locals :=
  {| initArgs := initArgs l; argBuffer := argBuffer l; bootCommand := v; ptr := ptr l |}.
Definition set_ptr (v : Z) (l : locals) : locals :=
  {| initArgs := initArgs l; argBuffer := argBuffer l; bootCommand := bootCommand l; ptr := v |}.

(** The frame on entry: nothing has been written yet.  Every cell is
    written before [Init] reads it, so the filler bytes are never seen. *)
Definition entry : locals :=
  {| initArgs := replicate 10 Undef;
     argBuffer := replicate 100 NUL;
     bootCommand := replicate 103 NUL;
     ptr := 0 |}.

Definition in_bounds (size i : Z) : bool := (0 <=? i) && (i <? size).

(** [initArgs[i] = v]: the store is recorded, and is a fault outside the
    ten slots. *)
Definition store_initArgs (i : Z) (v : charp) : M locals unit :=
  emit (Store A_initArgs i) ;;
  if in_bounds 10 i
  then l ← get; put (set_initArgs (<[Z.to_nat i := v]> (initArgs l)) l)
  else stop (OutOfBounds A_initArgs i).

Definition load_initArgs (i : Z) : M locals charp :=
  l ← get;
  match (if in_bounds 10 i then initArgs l !! Z.to_nat i else None) with
  | Some p => ret p
  | None => stop (OutOfBounds A_initArgs i)
  end.

Definition load_argBuffer (i : Z) : M locals ascii :=
  l ← get;
  match (if in_bounds 100 i then argBuffer l !! Z.to_nat i else None) with
  | Some c => ret c
  | None => stop (OutOfBounds A_argBuffer i)
  end.

Definition store_bootCommand (i : Z) (c : ascii) : M locals unit :=
  emit (Store A_bootCommand i) ;;
  if in_bounds 103 i
  then l ← get; put (set_bootCommand (<[Z.to_nat i := c]> (bootCommand l)) l)
  else stop (OutOfBounds A_bootCommand i).

(** [*ptr++ = c] *)
Definition store_ptr_incr (c : ascii) : M locals unit :=
  l ← get;
  store_bootCommand (ptr l) c ;;
  l ← get; put (set_ptr (ptr l + 1) l).

(** [bzero(bootCommand, sizeof(bootCommand))] *)
Definition bzero_bootCommand : M locals unit :=
  l ← get; put (set_bootCommand (replicate 103 NUL) l).

(** The number of bytes before the first NUL of [s]; nothing when [s]
    holds no NUL, where the C function runs off the array. *)
Fixpoint strlen_in (s : list ascii) : option Z :=
  match s with
  | [] => None
  | c :: s' => if decide (c = NUL) then Some 0 else Z.succ <$> strlen_in s'
  end.

(** [strlen(p)] for the pointers [Init] can hold. *)
Definition strlen (p : charp) : M locals Z :=
  match p with
  | ArgBuffer_at off =>
      l ← get;
      if in_bounds 100 off
      then match strlen_in (drop (Z.to_nat off) (argBuffer l)) with
           | Some n => ret n
           | None => stop (OutOfBounds A_argBuffer 100)
           end
      else stop (OutOfBounds A_argBuffer off)
  | Lit s => ret (Z.of_nat (String.length s))
  | _ => stop (BadPointer p)
  end.

(** [(int) p]: only pointers into [argBuffer] have an address here. *)
Definition int_of_charp (w : World) (p : charp) : M locals Z :=
  match p with
  | ArgBuffer_at off => ret (to_int (argBuffer_addr w + off))
  | _ => stop (BadPointer p)
  end.

(** Where each fragment starts when the fragments lie back to back, each
    followed by its NUL, the first one at [off]. *)
Fixpoint fragment_offsets (off : Z) (frags : list string) : list Z :=
  match frags with
  | [] => []
  | f :: fs => off :: fragment_offsets (off + Z.of_nat (String.length f) + 1) fs
  end.

Definition fragment_bytes (frags : list string) : list ascii :=
  concat (map (fun f => list_ascii_of_string f ++ [NUL]) frags).

(** Modelled from the spec: [Mach_GetBootArgs] belongs to the machine
    module and is not part of init_main.c.  The spec gives the monitor's
    boot arguments as a sequence of NUL-terminated fragments stored back
    to back, of which at most [argc] are read and at most [bufferSize]
    bytes are copied.  The result is the number of fragments read, the
    offset in the buffer of each of them (the pointers stored through
    [argv]), and the [bufferSize] bytes of the buffer, NUL after the last
    fragment. *)
Definition Mach_GetBootArgs (argc bufferSize : Z) (frags : list string)
  : Z * list Z * list ascii :=
  let ptrs := take (Z.to_nat argc) (fragment_offsets 0 frags) in
  (Z.of_nat (length ptrs), ptrs,
   take (Z.to_nat bufferSize) (fragment_bytes frags ++ replicate (Z.to_nat bufferSize) NUL)).

(** [argv[i] = buffer + off] for each fragment read, [argv] being
    [&initArgs[slot]]. *)
Fixpoint store_argv (slot : Z) (offs : list Z) : M locals unit :=
  match offs with
  | [] => ret tt
  | off :: offs' => store_initArgs slot (ArgBuffer_at off) ;; store_argv (slot + 1) offs'
  end.

(** [Mach_GetBootArgs(argc, bufferSize, &(initArgs[slot]), argBuffer)] *)
Definition call_Mach_GetBootArgs (w : World) (argc bufferSize slot : Z) : M locals Z :=
  emit (GetBootArgs argc bufferSize) ;;
  match Mach_GetBootArgs argc bufferSize (boot_fragments w) with
  | (n, offs, buf) =>
      (l ← get; put (set_argBuffer buf l)) ;;
      store_argv slot offs ;;
      ret n
  end.

(** [Proc_KernExec(initArgs[0], initArgs)]: returns only when the exec
    failed. *)
Definition Proc_KernExec (w : World) : M locals ReturnStatus :=
  path ← load_initArgs 0;
  l ← get;
  emit (KernExec path (initArgs l)) ;;
  match Proc_KernExec_result w path with
  | None => stop Replaced
  | Some status => ret status
  end.

Definition Fs_Open (w : World) (path : string) : M locals ReturnStatus :=
  emit (Open path) ;; ret (Fs_Open_result w path).

(** Lines 199 to 204: the boot arguments and their length.  Returns
    [argc] and [argLength]. *)
Definition Init_length (w : World) : M locals (Z * Z) :=
  bzero_bootCommand ;;
  argc ← call_Mach_GetBootArgs w 8 100 2;
  argLength ←
    (if argc >? 0
     then p ← load_initArgs (argc + 1);
          a ← int_of_charp w p;
          n ← strlen p;
          ret (to_int (a + n + 1 - to_int (argBuffer_addr w)))
     else ret 0);
  ret (argc, argLength).

(** Lines 206 to 219: the command line and the argument vector. *)
Definition Init_vector (argc argLength : Z) : M locals unit :=
  if argLength >? 0
  then
    store_initArgs 1 (Lit "-b") ;;
    (l ← get; put (set_ptr 0 l)) ;;
    for_ 0 argLength (fun i =>
      c ← load_argBuffer i;
      if decide (c = NUL) then store_ptr_incr SPACE else store_ptr_incr c) ;;
    store_bootCommand argLength NUL ;;
    store_initArgs 2 BootCommand ;;
    store_initArgs (argc + 2) NIL
  else
    store_initArgs 1 NIL.

(** Lines 221 to 226: the attempt on the alternate init program. *)
Definition Init_alternate (w : World) : M locals unit :=
  match main_AltInit w with
  | Some alt =>
      store_initArgs 0 (Lit alt) ;;
      p ← load_initArgs 0;
      emit (Execing p) ;;
      status ← Proc_KernExec w;
      p ← load_initArgs 0;
      emit (CouldNotExec p status)
  | None => ret tt
  end.

(** Lines 228 to 235: the open check, the attempt on INIT, the exit. *)
Definition Init_canonical (w : World) : M locals unit :=
  status ← Fs_Open w (INIT w);
  when (negb (status =? SUCCESS)) (emit (CantOpen (INIT w) status)) ;;
  store_initArgs 0 (Lit (INIT w)) ;;
  status ← Proc_KernExec w;
  p ← load_initArgs 0;
  emit (CouldNotExec p status) ;;
  Proc_Exit 1.

(** Lines 199 to 219 together: [argc] and [argLength] are not used
    after them. *)
Definition Init_arguments (w : World) : M locals unit :=
  '(argc, argLength) ← Init_length w;
  Init_vector argc argLength.

(** Lines 221 to 235 together: the exec phase. *)
Definition Init_exec (w : World) : M locals unit :=
  Init_alternate w ;;
  Init_canonical w.

Definition Init (w : World) : M locals unit :=
  Init_arguments w ;;
  Init_exec w.

(** ** Reading the outcome *)

(** The C string that starts at the head of [s]. *)
Fixpoint cstring (s : list ascii) : string :=
  match s with
  | [] => EmptyString
  | c :: s' => if decide (c = NUL) then EmptyString else String c (cstring s')
  end.

(** The string a pointer designates in the frame [l]. *)
Definition string_at (l : locals) (p : charp) : option string :=
  match p with
  | Lit s => Some s
  | BootCommand => Some (cstring (bootCommand l))
  | ArgBuffer_at off => Some (cstring (drop (Z.to_nat off) (argBuffer l)))
  | NIL | Undef => None
  end.

(** The arguments of a vector: the slots before the first [NIL]. *)
Fixpoint live_slots (v : list charp) : list charp :=
  match v with
  | [] => []
  | p :: v' => if decide (p = NIL) then [] else p :: live_slots v'
  end.

(** What the copy loop writes for a byte of [argBuffer]. *)
Definition nul_to_space (c : ascii) : ascii :=
  if decide (c = NUL) then SPACE else c.

(** The boundary contract of the boot arguments: at most 8 fragments,
    which with their NULs fill at most the 100 bytes of the buffer. *)
Definition boot_contract (frags : list string) : Prop :=
  (length frags <= 8)%nat /\ (length (fragment_bytes frags) <= 100)%nat.

(** A fragment is a C string: it holds no NUL of its own. *)
Definition nul_free (f : string) : Prop := NUL ∉ list_ascii_of_string f.

(** A store that stays inside its array. *)
Definition store_in_bounds (e : event) : Prop :=
  match e with
  | Store A_initArgs i => 0 <= i < 10
  | Store A_argBuffer i => 0 <= i < 100
  | Store A_bootCommand i => 0 <= i < 103
  | _ => True
  end.

(** ** Reading a trace *)

(** How often [a] occurs in [tr]. *)
Fixpoint occurrences (a : event) (tr : list event) : nat :=
  match tr with
  | [] => 0%nat
  | e :: tr' => ((if decide (e = a) then 1 else 0) + occurrences a tr')%nat
  end.

(** [a] and [b] both occur, and no [b] comes before that [a]. *)
Definition precedes (a b : event) (tr : list event) : Prop :=
  exists i j : nat,
    tr !! i = Some a /\ tr !! j = Some b /\ (i < j)%nat /\
    forall k : nat, tr !! k = Some b -> (i < k)%nat.

(** [a] occurs, and every event of the kind [p] comes after it. *)
Definition precedes_every (a : event) (p : event -> bool) (tr : list event) : Prop :=
  exists i : nat,
    tr !! i = Some a /\
    forall (k : nat) (e : event), tr !! k = Some e -> p e = true -> (i < k)%nat.

(** The events by which [main] brings a kernel process to life: a
    function handed to the server processes, an RPC server, a process of
    its own, the batch of server processes. *)
Definition starts_process (e : event) : bool :=
  match e with
  | CallFunc _ | CreateServer | NewProc _ _ | ServerProcCreate _ => true
  | _ => false
  end.

Definition is_ServerProcCreate (e : event) : bool :=
  match e with
  | ServerProcCreate _ => true
  | _ => false
  end.

Definition set_collaborator (r : string -> ReturnStatus) (w : World) : World :=
  {| INIT := INIT w; main_AltInit := main_AltInit w;
     main_NumRpcServers := main_NumRpcServers w;
     FSCACHE_MAX_CLEANER_PROCS := FSCACHE_MAX_CLEANER_PROCS w;
     VM_MAX_PAGE_OUT_PROCS := VM_MAX_PAGE_OUT_PROCS w;
     collaborator := r;
     Proc_KernExec_result := Proc_KernExec_result w;
     Fs_Open_result := Fs_Open_result w;
     boot_fragments := boot_fragments w;
     argBuffer_addr := argBuffer_addr w |}.

(** The fatal short circuit as the specification words it: once an entry
    point has returned something other than [SUCCESS], [main] enters no
    further one. *)
Definition fatal_short_circuit : Prop :=
  forall (w : World) (f : string) (i : nat),
    trace (main w) tt !! i = Some (Call f) ->
    collaborator w f <> SUCCESS ->
    forall (j : nat) (g : string), (i < j)%nat -> trace (main w) tt !! j <> Some (Call g).

(** A machine whose bootstrap VM initialisation reports a failure, and
    nothing else does. *)
Definition world_Vm_BootInit_fails : World :=
  {| INIT := "cmds/initsprite"; main_AltInit := None;
     main_NumRpcServers := 2;
     FSCACHE_MAX_CLEANER_PROCS := 3; VM_MAX_PAGE_OUT_PROCS := 2;
     collaborator := fun f => if decide (f = "Vm_BootInit") then 1 else SUCCESS;
     Proc_KernExec_result := fun _ => None;
     Fs_Open_result := fun _ => SUCCESS;
     boot_fragments := [];
     argBuffer_addr := 0 |}.

(** The events of [main] up to the loop over the RPC servers, and those
    after it. *)
Definition main_before_servers : list event :=
  [Call "Main_InitVars"; Call "Mach_Init"; Call "Sync_Init"; Call "Dbg_Init";
   MonPrintf "Sprite kernel for %s Built on %s at %s";
   Call "Sys_Init"; Call "Vm_BootInit"; Call "Dev_Init"; Call "Dump_Init";
   Call "Proc_Init"; Call "Sync_LockStatInit"; Call "Timer_Init";
   Call "Sig_Init"; Call "Sched_Init"; Incr "main_PanicOK";
   Call "SpriteVersion"; Printf "Sprite kernel: %s"; Call "Fs_Bin";
   Call "Net_Bin"; Call "Vm_Init"; Call "Proc_InitMainProc"; Call "Net_Init";
   Call "Net_RouteInit"; Call "Proc_ServerInit"; Call "Recov_Init";
   Call "Rpc_Init"; Call "Dev_Config"; Call "Prof_Init";
   Call "Mach_MonStartNmi"; Call "ENABLE_INTR"; Call "Fsrecov_InitState";
   Call "Fsrecov_DirOpInit"; Call "Sched_TimeTicks"; Call "Prof_Start";
   Call "Rpc_Start"; Call "Fs_Init"; Call "Fs_ProcInit"; CallFunc "Vm_Clock";
   CallFunc "Vm_OpenSwapDirectory"; CallFunc "Fsutil_SyncProc"].

Definition main_after_servers (w : World) : list event :=
  [NewProc "Rpc_Daemon" "Rpc_Daemon";
   ServerProcCreate (to_int (FSCACHE_MAX_CLEANER_PROCS w + VM_MAX_PAGE_OUT_PROCS w));
   NewProc "Recov_Proc" "Recov_Proc"; Call "Proc_MigInit";
   Call "Main_HookRoutine"; Printf "MEMORY %d bytes allocated for kernel";
   NewProc "Init" "Init"; WaitTime "time_OneYear";
   MonPrintf "Leaving main()"; Exit 0].

(** The frame of [Init] when [Mach_GetBootArgs] has returned, for boot
    arguments within the contract. *)
Definition frame_after_GetBootArgs (frags : list string) : locals :=
  {| initArgs := [Undef; Undef] ++ (ArgBuffer_at <$> fragment_offsets 0 frags)
                 ++ replicate (8 - length frags) Undef;
     argBuffer := fragment_bytes frags
                  ++ replicate (100 - length (fragment_bytes frags)) NUL;
     bootCommand := replicate 103 NUL;
     ptr := 0 |}.

(** The line the open check prints, when it prints one. *)
Definition open_complaint (w : World) : list event :=
  if Fs_Open_result w (INIT w) =? SUCCESS then []
  else [CantOpen (INIT w) (Fs_Open_result w (INIT w))].

Definition is_CouldNotExec (e : event) : bool :=
  match e with
  | CouldNotExec _ _ => true
  | _ => false
  end.

(** The events of the argument phase: the call of [Mach_GetBootArgs] and
    the stores. *)
Definition is_argument_event (e : event) : bool :=
  match e with
  | GetBootArgs _ _ | Store _ _ => true
  | _ => false
  end.

(** The frame when the argument vector is complete, for [argLength = len]
    positive.  The end marker is written only when its slot exists. *)
Definition frame_after_vector (frags : list string) (len : Z) : locals :=
  {| initArgs :=
       <[(length frags + 2)%nat := NIL]>
         (<[2%nat := BootCommand]>
            (<[1%nat := Lit "-b"]> (initArgs (frame_after_GetBootArgs frags))));
     argBuffer := argBuffer (frame_after_GetBootArgs frags);
     bootCommand :=
       (nul_to_space <$> take (Z.to_nat len) (argBuffer (frame_after_GetBootArgs frags)))
       ++ replicate (103 - Z.to_nat len) NUL;
     ptr := len |}.

(** What the argument phase emits for [n] fragments and [argLength = len]
    positive. *)
Definition argument_events (n len : Z) : list event :=
  GetBootArgs 8 100 :: (Store A_initArgs <$> seqZ 2 n)
  ++ Store A_initArgs 1 :: (Store A_bootCommand <$> seqZ 0 len)
  ++ [Store A_bootCommand len; Store A_initArgs 2; Store A_initArgs (n + 2)].

(** What the exec phase may emit when it starts with the slots after the
    first equal to [tl]: stores to slot 0 only, and every exec with a
    constant string as path and that path followed by [tl] as vector. *)
Definition exec_event (tl : list charp) (e : event) : Prop :=
  match e with
  | Store a i => a = A_initArgs /\ i = 0
  | KernExec path argv => (exists x, path = Lit x) /\ argv = path :: tl
  | GetBootArgs _ _ => False
  | _ => True
  end.

(** Two fragments, as in the specification's example; both execs fail. *)
Definition world_two_fragments : World :=
  {| INIT := "cmds/initsprite"; main_AltInit := Some "cmds/altinit";
     main_NumRpcServers := 2;
     FSCACHE_MAX_CLEANER_PROCS := 3; VM_MAX_PAGE_OUT_PROCS := 2;
     collaborator := fun _ => SUCCESS;
     Proc_KernExec_result := fun _ => Some 1;
     Fs_Open_result := fun _ => 2;
     boot_fragments := ["root=/dev/sda1"; "quiet"];
     argBuffer_addr := 4096 |}.

(** Eight fragments, the most [Mach_GetBootArgs] is asked for. *)
Definition world_eight_fragments : World :=
  {| INIT := "cmds/initsprite"; main_AltInit := None;
     main_NumRpcServers := 2;
     FSCACHE_MAX_CLEANER_PROCS := 3; VM_MAX_PAGE_OUT_PROCS := 2;
     collaborator := fun _ => SUCCESS;
     Proc_KernExec_result := fun _ => Some 1;
     Fs_Open_result := fun _ => SUCCESS;
     boot_fragments := ["a"; "b"; "c"; "d"; "e"; "f"; "g"; "h"];
     argBuffer_addr := 4096 |}.

(** No boot arguments. *)
Definition world_no_fragments : World :=
  {| INIT := "cmds/initsprite"; main_AltInit := None;
     main_NumRpcServers := 2;
     FSCACHE_MAX_CLEANER_PROCS := 3; VM_MAX_PAGE_OUT_PROCS := 2;
     collaborator := fun _ => SUCCESS;
     Proc_KernExec_result := fun _ => Some 1;
     Fs_Open_result := fun _ => SUCCESS;
     boot_fragments := [];
     argBuffer_addr := 4096 |}.

(** ** Further readings of a run *)

Definition set_argBuffer_addr (a : Z) (w : World) : World :=
  {| INIT := INIT w; main_AltInit := main_AltInit w;
     main_NumRpcServers := main_NumRpcServers w;
     FSCACHE_MAX_CLEANER_PROCS := FSCACHE_MAX_CLEANER_PROCS w;
     VM_MAX_PAGE_OUT_PROCS := VM_MAX_PAGE_OUT_PROCS w;
     collaborator := collaborator w;
     Proc_KernExec_result := Proc_KernExec_result w;
     Fs_Open_result := Fs_Open_result w;
     boot_fragments := boot_fragments w;
     argBuffer_addr := a |}.

Definition set_Fs_Open_result (r : string -> ReturnStatus) (w : World) : World :=
  {| INIT := INIT w; main_AltInit := main_AltInit w;
     main_NumRpcServers := main_NumRpcServers w;
     FSCACHE_MAX_CLEANER_PROCS := FSCACHE_MAX_CLEANER_PROCS w;
     VM_MAX_PAGE_OUT_PROCS := VM_MAX_PAGE_OUT_PROCS w;
     collaborator := collaborator w;
     Proc_KernExec_result := Proc_KernExec_result w;
     Fs_Open_result := r;
     boot_fragments := boot_fragments w;
     argBuffer_addr := argBuffer_addr w |}.

(** The entry points called, in order. *)
Fixpoint called (tr : list event) : list string :=
  match tr with
  | [] => []
  | Call f :: tr' => f :: called tr'
  | _ :: tr' => called tr'
  end.

(** The paths handed to [Proc_KernExec], in order. *)
Fixpoint exec_paths (tr : list event) : list charp :=
  match tr with
  | [] => []
  | KernExec path _ :: tr' => path :: exec_paths tr'
  | _ :: tr' => exec_paths tr'
  end.

(** The paths handed to [Fs_Open], in order. *)
Fixpoint opened (tr : list event) : list string :=
  match tr with
  | [] => []
  | Open path :: tr' => path :: opened tr'
  | _ :: tr' => opened tr'
  end.

Definition is_Printf (e : event) : bool :=
  match e with
  | Printf _ => true
  | _ => false
  end.

Definition is_CantOpen (e : event) : bool :=
  match e with
  | CantOpen _ _ => true
  | _ => false
  end.

(** The fragments in order, each followed by one space. *)
Fixpoint join_fragments (frags : list string) : string :=
  match frags with
  | [] => EmptyString
  | f :: fs => String.append f (String SPACE (join_fragments fs))
  end.

(** Two runs that differ at most in the lines the open check printed. *)
Definition same_but_complaints {A} (x y : res A * locals * list event) : Prop :=
  x.1 = y.1 /\
  List.filter (fun e => negb (is_CantOpen e)) x.2
  = List.filter (fun e => negb (is_CantOpen e)) y.2.

(** * Properties *)

(** ** The monad *)

Lemma bind_Ret {L A B} (m : M L A) (k : A -> M L B) l a l1 t1 r l2 t2 :
  m l = (Ret a, l1, t1) -> k a l1 = (r, l2, t2) ->
  (m ≫= k) l = (r, l2, t1 ++ t2).
Proof. intros Hm Hk. unfold mbind, M_bind, bind. now rewrite Hm, Hk. Qed.

Lemma bind_Halt {L A B} (m : M L A) (k : A -> M L B) l h l1 t1 :
  m l = (Halt h, l1, t1) -> (m ≫= k) l = (Halt h, l1, t1).
Proof. intros Hm. unfold mbind, M_bind, bind. now rewrite Hm. Qed.

(** The same for a first part that emits nothing, a second part that
    emits nothing, and a first part that emits one event. *)
Lemma bind_Ret_quiet {L A B} (m : M L A) (k : A -> M L B) l a l1 r l2 t2 :
  m l = (Ret a, l1, []) -> k a l1 = (r, l2, t2) ->
  (m ≫= k) l = (r, l2, t2).
Proof. intros Hm Hk. now rewrite (bind_Ret _ _ _ _ _ _ _ _ _ Hm Hk). Qed.

Lemma bind_Ret_then_quiet {L A B} (m : M L A) (k : A -> M L B) l a l1 t1 r l2 :
  m l = (Ret a, l1, t1) -> k a l1 = (r, l2, []) ->
  (m ≫= k) l = (r, l2, t1).
Proof. intros Hm Hk. now rewrite (bind_Ret _ _ _ _ _ _ _ _ _ Hm Hk), app_nil_r. Qed.

Lemma bind_Ret_one {L A B} (m : M L A) (k : A -> M L B) l a l1 e r l2 t2 :
  m l = (Ret a, l1, [e]) -> k a l1 = (r, l2, t2) ->
  (m ≫= k) l = (r, l2, e :: t2).
Proof. intros Hm Hk. now rewrite (bind_Ret _ _ _ _ _ _ _ _ _ Hm Hk). Qed.

(** ** Integer arithmetic *)

Lemma to_int_small z : - 2 ^ 31 <= z < 2 ^ 31 -> to_int z = z.
Proof.
  intros Hz. unfold to_int.
  rewrite Z.mod_small; lia.
Qed.

(** The length computed from the two casts does not depend on where
    [argBuffer] lies. *)
Lemma to_int_difference base off n :
  - 2 ^ 31 <= off + n + 1 < 2 ^ 31 ->
  to_int (to_int (base + off) + n + 1 - to_int base) = off + n + 1.
Proof.
  intros Hr. unfold to_int in *.
  change (2 ^ 31) with 2147483648 in *. change (2 ^ 32) with 4294967296 in *.
  Z.div_mod_to_equations. lia.
Qed.

(** ** [main] *)

Lemma for_loop_emit {L} (e : event) n i (l : L) :
  for_loop n i (fun _ => emit e) l = (Ret tt, l, replicate n e).
Proof.
  revert i. induction n as [|n IH]; intros i; [reflexivity|].
  cbn [for_loop]. erewrite bind_Ret; [|reflexivity|apply IH]. reflexivity.
Qed.

(** The loop over the RPC servers, guard included. *)
Lemma create_servers_run {L} n (l : L) :
  when (n >? 0) (for_ 0 n (fun _ => emit CreateServer)) l
  = (Ret tt, l, replicate (Z.to_nat n) CreateServer).
Proof.
  destruct (n >? 0) eqn:Hn; cbn [when].
  - unfold for_. rewrite Z.sub_0_r. apply for_loop_emit.
  - assert (n <= 0) by lia. replace (Z.to_nat n) with 0%nat by lia. reflexivity.
Qed.

Ltac run_main :=
  repeat (eapply bind_Ret; [first [apply create_servers_run | reflexivity]|]);
  reflexivity.

(** One run of [main]: it never branches on a result, so its events are
    the statements in order, and it ends in [Proc_Exit(0)]. *)
Lemma main_run w :
  main w tt =
  (Halt (Exited 0), tt,
   main_before_servers
   ++ replicate (Z.to_nat (main_NumRpcServers w)) CreateServer
   ++ main_after_servers w).
Proof.
  etransitivity; [unfold main; run_main|reflexivity].
Qed.

Lemma main_trace w :
  trace (main w) tt =
  main_before_servers
  ++ replicate (Z.to_nat (main_NumRpcServers w)) CreateServer
  ++ main_after_servers w.
Proof. unfold trace. now rewrite main_run. Qed.

Lemma occurrences_app a t1 t2 :
  occurrences a (t1 ++ t2) = (occurrences a t1 + occurrences a t2)%nat.
Proof. induction t1 as [|e t1 IH]; cbn [app occurrences]; [reflexivity|]. rewrite IH. lia. Qed.

Lemma occurrences_replicate a e n :
  occurrences a (replicate n e) = if decide (e = a) then n else 0%nat.
Proof.
  induction n as [|n IH]; cbn [replicate occurrences].
  - now destruct (decide (e = a)).
  - rewrite IH. destruct (decide (e = a)); lia.
Qed.

(** An event at one of the first [n] places of a written-out trace is the
    event written there. *)
Ltac first_places Hk :=
  match type of Hk with
  | _ !! ?i = _ =>
      let k := fresh "k" in
      destruct i as [|k]; [discriminate Hk|cbn [lookup list_lookup] in Hk]
  end.
Tactic Notation "before_index" integer(n) "in" hyp(Hk) := do n (first_places Hk).

Ltac not_started Hk Hp :=
  match type of Hk with
  | _ !! ?i = _ =>
      let k := fresh "k" in
      destruct i as [|k];
      [injection Hk as <-; discriminate Hp|cbn [lookup list_lookup] in Hk]
  end.

(** C5. In every run of [main], Vm_BootInit comes before Dev_Init,
    Proc_Init before every event that starts a kernel process, Sched_Init
    before Sched_TimeTicks, Vm_Init before Net_Init, and Rpc_Init before
    Rpc_Start. *)
Theorem main_order w :
  let tr := trace (main w) tt in
  precedes (Call "Vm_BootInit") (Call "Dev_Init") tr /\
  precedes_every (Call "Proc_Init") starts_process tr /\
  precedes (Call "Sched_Init") (Call "Sched_TimeTicks") tr /\
  precedes (Call "Vm_Init") (Call "Net_Init") tr /\
  precedes (Call "Rpc_Init") (Call "Rpc_Start") tr.
Proof.
  rewrite main_trace. cbn zeta. unfold main_before_servers. cbn [app].
  split; [|split; [|split; [|split]]].
  - exists 6%nat, 7%nat. repeat split; [lia|].
    intros k Hk. before_index 7 in Hk. lia.
  - exists 9%nat. split; [reflexivity|].
    intros k e Hk Hp. do 10 (not_started Hk Hp). lia.
  - exists 13%nat, 32%nat. repeat split; [lia|].
    intros k Hk. before_index 14 in Hk. lia.
  - exists 19%nat, 21%nat. repeat split; [lia|].
    intros k Hk. before_index 20 in Hk. lia.
  - exists 25%nat, 34%nat. repeat split; [lia|].
    intros k Hk. before_index 26 in Hk. lia.
Qed.

Lemma filter_replicate_CreateServer n t :
  filter is_ServerProcCreate (replicate n CreateServer ++ t)
  = filter is_ServerProcCreate t.
Proof.
  induction n as [|m IH]; [reflexivity|]. cbn [replicate app].
  rewrite filter_cons_False; [exact IH|]. cbn. intros [].
Qed.

(** C6. [main] creates as many RPC servers as [main_NumRpcServers] says
    (none when that is not positive), all of them before the one
    Rpc_Daemon process; it creates the server processes in one batch
    whose size is the [int] sum FSCACHE_MAX_CLEANER_PROCS +
    VM_MAX_PAGE_OUT_PROCS, which is exactly the sum of the two whenever
    that is an [int], and 5 for 3 and 2; and it creates Recov_Proc once,
    by Proc_NewProc and not by Proc_CallFunc. *)
Theorem main_daemons w :
  let tr := trace (main w) tt in
  Z.of_nat (occurrences CreateServer tr) = Z.max 0 (main_NumRpcServers w) /\
  occurrences (NewProc "Rpc_Daemon" "Rpc_Daemon") tr = 1%nat /\
  (exists j : nat,
      tr !! j = Some (NewProc "Rpc_Daemon" "Rpc_Daemon") /\
      forall k : nat, tr !! k = Some CreateServer -> (k < j)%nat) /\
  filter is_ServerProcCreate tr
    = [ServerProcCreate (to_int (FSCACHE_MAX_CLEANER_PROCS w + VM_MAX_PAGE_OUT_PROCS w))] /\
  (- 2 ^ 31 <= FSCACHE_MAX_CLEANER_PROCS w + VM_MAX_PAGE_OUT_PROCS w < 2 ^ 31 ->
   filter is_ServerProcCreate tr
   = [ServerProcCreate (FSCACHE_MAX_CLEANER_PROCS w + VM_MAX_PAGE_OUT_PROCS w)]) /\
  (FSCACHE_MAX_CLEANER_PROCS w = 3 -> VM_MAX_PAGE_OUT_PROCS w = 2 ->
   filter is_ServerProcCreate tr = [ServerProcCreate 5]) /\
  occurrences (NewProc "Recov_Proc" "Recov_Proc") tr = 1%nat /\
  occurrences (CallFunc "Recov_Proc") tr = 0%nat.
Proof.
  rewrite main_trace. cbn zeta.
  set (n := Z.to_nat (main_NumRpcServers w)).
  assert (Hbatch : filter is_ServerProcCreate
            (main_before_servers ++ replicate n CreateServer ++ main_after_servers w)
          = [ServerProcCreate
               (to_int (FSCACHE_MAX_CLEANER_PROCS w + VM_MAX_PAGE_OUT_PROCS w))]).
  { rewrite filter_app, filter_replicate_CreateServer. reflexivity. }
  assert (Hlen : length main_before_servers = 40%nat) by reflexivity.
  split; [|split; [|split; [|split; [|split; [|split; [|split]]]]]].
  - rewrite !occurrences_app, occurrences_replicate.
    change (occurrences CreateServer main_before_servers) with 0%nat.
    change (occurrences CreateServer (main_after_servers w)) with 0%nat.
    destruct (decide (CreateServer = CreateServer)); [subst n; lia|congruence].
  - rewrite !occurrences_app, occurrences_replicate. reflexivity.
  - exists (40 + n)%nat. split.
    + rewrite lookup_app_r by lia. rewrite lookup_app_r by (rewrite length_replicate; lia).
      rewrite length_replicate, Hlen. replace (40 + n - 40 - n)%nat with 0%nat by lia.
      reflexivity.
    + intros k Hk. destruct (decide (k < 40 + n)%nat) as [|Hge]; [assumption|exfalso].
      rewrite lookup_app_r in Hk by lia.
      rewrite lookup_app_r in Hk by (rewrite length_replicate; lia).
      unfold main_after_servers in Hk.
      before_index 10 in Hk. discriminate Hk.
  - exact Hbatch.
  - intros Hrange. rewrite Hbatch, (to_int_small _ Hrange). reflexivity.
  - intros Hc Hp. rewrite Hbatch, Hc, Hp. reflexivity.
  - rewrite !occurrences_app, occurrences_replicate. reflexivity.
  - rewrite !occurrences_app, occurrences_replicate. reflexivity.
Qed.

Lemma main_daemons_witness :
  - 2 ^ 31 <= FSCACHE_MAX_CLEANER_PROCS world_Vm_BootInit_fails
              + VM_MAX_PAGE_OUT_PROCS world_Vm_BootInit_fails < 2 ^ 31 /\
  FSCACHE_MAX_CLEANER_PROCS world_Vm_BootInit_fails = 3 /\
  VM_MAX_PAGE_OUT_PROCS world_Vm_BootInit_fails = 2 /\
  filter is_ServerProcCreate (trace (main world_Vm_BootInit_fails) tt)
  = [ServerProcCreate (3 + 2)] /\
  filter is_ServerProcCreate (trace (main world_Vm_BootInit_fails) tt)
  = [ServerProcCreate 5].
Proof.
  assert (Hrange : - 2 ^ 31 <= FSCACHE_MAX_CLEANER_PROCS world_Vm_BootInit_fails
                               + VM_MAX_PAGE_OUT_PROCS world_Vm_BootInit_fails < 2 ^ 31)
    by (cbn [FSCACHE_MAX_CLEANER_PROCS VM_MAX_PAGE_OUT_PROCS world_Vm_BootInit_fails];
        change (2 ^ 31) with 2147483648; lia).
  split; [exact Hrange|]. split; [reflexivity|]. split; [reflexivity|].
  destruct (main_daemons world_Vm_BootInit_fails) as (_ & _ & _ & _ & Hsum & H5 & _).
  split; [exact (Hsum Hrange)|apply H5; reflexivity].
Defined.

(** C4, as the specification states it, fails: Vm_BootInit returns a
    failure and Dev_Init is called all the same. *)
Lemma fatal_short_circuit_fails : ~ fatal_short_circuit.
Proof.
  intros H.
  apply (H world_Vm_BootInit_fails "Vm_BootInit" 6%nat) with (j := 7%nat) (g := "Dev_Init").
  - reflexivity.
  - discriminate.
  - lia.
  - reflexivity.
Qed.

(** C4, amended. [main] drops every result: whatever the entry points
    return, it makes the same calls in the same order and runs to
    [Proc_Exit(0)]; a failure reported by one phase stops nothing. *)
Theorem main_ignores_results w r :
  trace (main (set_collaborator r w)) tt = trace (main w) tt /\
  result (main (set_collaborator r w)) tt = Halt (Exited 0).
Proof.
  unfold trace, result. rewrite !main_run. split; reflexivity.
Qed.

(** ** The boot arguments as [Mach_GetBootArgs] leaves them *)

Lemma list_ascii_length f : length (list_ascii_of_string f) = String.length f.
Proof. induction f as [|c f IH]; cbn; [reflexivity|now rewrite IH]. Qed.

Lemma fragment_offsets_length off fs : length (fragment_offsets off fs) = length fs.
Proof. revert off. induction fs as [|f fs IH]; intros off; cbn; [reflexivity|now rewrite IH]. Qed.

Lemma fragment_bytes_cons f fs :
  fragment_bytes (f :: fs) = list_ascii_of_string f ++ NUL :: fragment_bytes fs.
Proof. unfold fragment_bytes. cbn [map concat]. now rewrite <- app_assoc. Qed.

Lemma fragment_bytes_app fs gs :
  fragment_bytes (fs ++ gs) = fragment_bytes fs ++ fragment_bytes gs.
Proof. unfold fragment_bytes. now rewrite map_app, concat_app. Qed.

(** The last fragment starts where the bytes of the others end. *)
Lemma fragment_offsets_snoc off fs f :
  fragment_offsets off (fs ++ [f])
  = fragment_offsets off fs ++ [off + Z.of_nat (length (fragment_bytes fs))].
Proof.
  revert off. induction fs as [|g fs IH]; intros off; cbn [app fragment_offsets].
  - cbn. now rewrite Z.add_0_r.
  - rewrite IH. f_equal. f_equal. f_equal.
    rewrite fragment_bytes_cons, length_app, list_ascii_length. cbn [length]. lia.
Qed.

Lemma Mach_GetBootArgs_contract frags :
  boot_contract frags ->
  Mach_GetBootArgs 8 100 frags
  = (Z.of_nat (length frags), fragment_offsets 0 frags,
     fragment_bytes frags ++ replicate (100 - length (fragment_bytes frags)) NUL).
Proof.
  intros [Hn Hb]. unfold Mach_GetBootArgs.
  change (Z.to_nat 8) with 8%nat. change (Z.to_nat 100) with 100%nat.
  rewrite take_ge by (rewrite fragment_offsets_length; lia).
  rewrite fragment_offsets_length.
  rewrite take_app_ge by lia. rewrite take_replicate.
  repeat f_equal. lia.
Qed.

Lemma strlen_in_app s t :
  NUL ∉ s -> strlen_in (s ++ NUL :: t) = Some (Z.of_nat (length s)).
Proof.
  induction s as [|c s IH]; intros Hs; cbn [app strlen_in length].
  - now destruct (decide (NUL = NUL)).
  - destruct (decide (c = NUL)) as [->|_].
    + exfalso. apply Hs. left.
    + rewrite IH by (intros Hin; apply Hs; now right). cbn. f_equal. lia.
Qed.

(** Whatever the bytes, a string followed by a NUL has a length, which is
    at most the number of bytes before that NUL. *)
Lemma strlen_in_bound s t :
  exists k, strlen_in (s ++ NUL :: t) = Some k /\ 0 <= k <= Z.of_nat (length s).
Proof.
  induction s as [|c s (k & Hk & Hr)]; cbn [app strlen_in length].
  - exists 0. now destruct (decide (NUL = NUL)).
  - destruct (decide (c = NUL)).
    + exists 0. split; [reflexivity|lia].
    + exists (Z.succ k). rewrite Hk. split; [reflexivity|lia].
Qed.

Lemma seqZ_succ m n : seqZ m (Z.of_nat (S n)) = m :: seqZ (m + 1) (Z.of_nat n).
Proof.
  rewrite seqZ_cons by lia. f_equal. f_equal; lia.
Qed.

(** *** The accesses to the arrays *)

Lemma store_initArgs_run i x l :
  in_bounds 10 i = true ->
  store_initArgs i x l
  = (Ret tt, set_initArgs (<[Z.to_nat i := x]> (initArgs l)) l, [Store A_initArgs i]).
Proof. intros H. unfold store_initArgs, mbind, M_bind, bind, emit. now rewrite H. Qed.

Lemma store_initArgs_fault i x l :
  in_bounds 10 i = false ->
  store_initArgs i x l = (Halt (OutOfBounds A_initArgs i), l, [Store A_initArgs i]).
Proof. intros H. unfold store_initArgs, mbind, M_bind, bind, emit. now rewrite H. Qed.

Lemma store_bootCommand_run i c l :
  in_bounds 103 i = true ->
  store_bootCommand i c l
  = (Ret tt, set_bootCommand (<[Z.to_nat i := c]> (bootCommand l)) l, [Store A_bootCommand i]).
Proof. intros H. unfold store_bootCommand, mbind, M_bind, bind, emit. now rewrite H. Qed.

Lemma load_initArgs_run i x l :
  in_bounds 10 i = true -> initArgs l !! Z.to_nat i = Some x ->
  load_initArgs i l = (Ret x, l, []).
Proof. intros H Hx. unfold load_initArgs, mbind, M_bind, bind, get. cbn. now rewrite H, Hx. Qed.

Lemma load_argBuffer_run i c l :
  in_bounds 100 i = true -> argBuffer l !! Z.to_nat i = Some c ->
  load_argBuffer i l = (Ret c, l, []).
Proof. intros H Hc. unfold load_argBuffer, mbind, M_bind, bind, get. cbn. now rewrite H, Hc. Qed.

(** The stores through [argv]: the slots from [slot] on receive the
    fragment pointers, the others are left alone. *)
Lemma store_argv_run offs : forall slot pre mid post buf bc p,
  length pre = Z.to_nat slot -> 0 <= slot ->
  length mid = length offs ->
  slot + Z.of_nat (length offs) <= 10 ->
  store_argv slot offs
    {| initArgs := pre ++ mid ++ post; argBuffer := buf; bootCommand := bc; ptr := p |}
  = (Ret tt,
     {| initArgs := pre ++ (ArgBuffer_at <$> offs) ++ post;
        argBuffer := buf; bootCommand := bc; ptr := p |},
     Store A_initArgs <$> seqZ slot (Z.of_nat (length offs))).
Proof.
  induction offs as [|off offs IH]; intros slot pre mid post buf bc p Hpre Hslot Hmid Hfit.
  - destruct mid; [reflexivity|discriminate].
  - destruct mid as [|m mid]; [discriminate|]. cbn [length] in Hmid, Hfit.
    cbn [store_argv length]. rewrite seqZ_succ. cbn [fmap list_fmap].
    change (Store A_initArgs slot :: ?t) with ([Store A_initArgs slot] ++ t).
    eapply bind_Ret.
    + apply store_initArgs_run. unfold in_bounds. lia.
    + cbn [set_initArgs initArgs argBuffer bootCommand ptr].
      rewrite insert_app_r_alt by lia. rewrite Hpre, Nat.sub_diag.
      cbn [app insert list_insert].
      specialize (IH (slot + 1) (pre ++ [ArgBuffer_at off]) mid post buf bc p).
      rewrite <- !app_assoc in IH. cbn [app] in IH.
      apply IH; [rewrite length_app; cbn [length]; lia|lia|lia|lia].
Qed.

Lemma call_Mach_GetBootArgs_run w :
  boot_contract (boot_fragments w) ->
  call_Mach_GetBootArgs w 8 100 2 entry
  = (Ret (Z.of_nat (length (boot_fragments w))),
     frame_after_GetBootArgs (boot_fragments w),
     GetBootArgs 8 100
       :: (Store A_initArgs <$> seqZ 2 (Z.of_nat (length (boot_fragments w))))).
Proof.
  intros Hc. unfold call_Mach_GetBootArgs.
  rewrite (Mach_GetBootArgs_contract _ Hc). destruct Hc as [Hn Hb].
  set (frags := boot_fragments w) in *.
  change (GetBootArgs 8 100 :: ?t) with ([GetBootArgs 8 100] ++ t).
  eapply bind_Ret; [reflexivity|].
  rewrite <- (app_nil_l (Store A_initArgs <$> _)).
  eapply bind_Ret; [reflexivity|].
  rewrite <- (app_nil_r (Store A_initArgs <$> _)).
  eapply bind_Ret; [|reflexivity].
  unfold set_argBuffer, entry, frame_after_GetBootArgs.
  cbn [initArgs argBuffer bootCommand ptr].
  replace (replicate 10 Undef)
    with ([Undef; Undef] ++ replicate (length frags) Undef ++ replicate (8 - length frags) Undef).
  - rewrite <- (fragment_offsets_length 0 frags) at 4.
    apply store_argv_run.
    + reflexivity.
    + lia.
    + now rewrite length_replicate, fragment_offsets_length.
    + rewrite fragment_offsets_length. lia.
  - rewrite <- replicate_add. cbn [app].
    replace (length frags + (8 - length frags))%nat with 8%nat by lia. reflexivity.
Qed.

Lemma strlen_in_tail s t : strlen_in (s ++ NUL :: t) = strlen_in (s ++ [NUL]).
Proof.
  induction s as [|c s IH]; cbn [app strlen_in].
  - reflexivity.
  - now rewrite IH.
Qed.

(** The pointer in the last slot [Mach_GetBootArgs] filled. *)
Lemma last_fragment_slot fs f :
  initArgs (frame_after_GetBootArgs (fs ++ [f])) !! S (S (length fs))
  = Some (ArgBuffer_at (Z.of_nat (length (fragment_bytes fs)))).
Proof.
  unfold frame_after_GetBootArgs. cbn [initArgs].
  rewrite (lookup_app_r [Undef; Undef]) by (cbn [length]; lia).
  cbn [length Nat.sub].
  rewrite fragment_offsets_snoc, fmap_app, <- app_assoc.
  rewrite lookup_app_r by (rewrite length_fmap, fragment_offsets_length; lia).
  rewrite length_fmap, fragment_offsets_length.
  replace (length fs - 0 - length fs)%nat with 0%nat by lia. reflexivity.
Qed.

(** The bytes of [argBuffer] from the start of the last fragment. *)
Lemma last_fragment_bytes fs f :
  drop (length (fragment_bytes fs)) (argBuffer (frame_after_GetBootArgs (fs ++ [f])))
  = list_ascii_of_string f
    ++ NUL :: replicate (100 - length (fragment_bytes (fs ++ [f]))) NUL.
Proof.
  unfold frame_after_GetBootArgs. cbn [argBuffer].
  rewrite fragment_bytes_app at 1. rewrite <- app_assoc, drop_app_length.
  unfold fragment_bytes at 1. cbn [map concat]. rewrite app_nil_r.
  now rewrite <- !app_assoc.
Qed.

Lemma strlen_run off n l :
  in_bounds 100 off = true ->
  strlen_in (drop (Z.to_nat off) (argBuffer l)) = Some n ->
  strlen (ArgBuffer_at off) l = (Ret n, l, []).
Proof.
  intros H Hn. unfold strlen, mbind, M_bind, bind, get. now rewrite H, Hn.
Qed.

Lemma fragment_bytes_snoc_length fs f :
  length (fragment_bytes (fs ++ [f]))
  = (length (fragment_bytes fs) + String.length f + 1)%nat.
Proof.
  rewrite fragment_bytes_app, length_app. unfold fragment_bytes at 2.
  cbn [map concat]. rewrite app_nil_r, length_app, list_ascii_length. cbn [length]. lia.
Qed.

Lemma Init_length_run w fs f k :
  boot_fragments w = fs ++ [f] ->
  boot_contract (fs ++ [f]) ->
  strlen_in (list_ascii_of_string f ++ [NUL]) = Some k ->
  Init_length w entry
  = (Ret (Z.of_nat (length fs) + 1, Z.of_nat (length (fragment_bytes fs)) + k + 1),
     frame_after_GetBootArgs (fs ++ [f]),
     GetBootArgs 8 100 :: (Store A_initArgs <$> seqZ 2 (Z.of_nat (length fs) + 1))).
Proof.
  intros Hw Hc Hk. unfold Init_length.
  assert (Hlen : Z.of_nat (length (boot_fragments w)) = Z.of_nat (length fs) + 1)
    by (rewrite Hw, length_app; cbn [length]; lia).
  rewrite <- Hlen, <- Hw.
  eapply bind_Ret_quiet; [reflexivity|].
  eapply bind_Ret_then_quiet.
  { apply (call_Mach_GetBootArgs_run w). now rewrite Hw. }
  rewrite Hlen, Hw.
  replace (Z.of_nat (length fs) + 1 >? 0) with true by lia.
  eapply bind_Ret_quiet; [|reflexivity].
  eapply bind_Ret_quiet.
  { apply load_initArgs_run.
    - destruct Hc as [Hn _]. rewrite length_app in Hn. cbn [length] in Hn.
      unfold in_bounds. lia.
    - replace (Z.to_nat (Z.of_nat (length fs) + 1 + 1)) with (S (S (length fs))) by lia.
      apply last_fragment_slot. }
  eapply bind_Ret_quiet; [reflexivity|].
  destruct (strlen_in_bound (list_ascii_of_string f) []) as (k' & Hk' & Hrange).
  rewrite Hk in Hk'. injection Hk' as <-. rewrite list_ascii_length in Hrange.
  destruct Hc as [_ Hb]. rewrite fragment_bytes_snoc_length in Hb.
  eapply bind_Ret_quiet.
  { apply strlen_run.
    - unfold in_bounds. lia.
    - rewrite Nat2Z.id, last_fragment_bytes, strlen_in_tail. exact Hk. }
  unfold mret, M_ret, ret.
  rewrite to_int_difference; [reflexivity|].
  change (2 ^ 31) with 2147483648. lia.
Qed.

Lemma Init_length_none w :
  boot_fragments w = [] ->
  Init_length w entry = (Ret (0, 0), frame_after_GetBootArgs [], [GetBootArgs 8 100]).
Proof.
  intros Hw. unfold Init_length, call_Mach_GetBootArgs. rewrite Hw. reflexivity.
Qed.

(** ** The copy loop *)

Lemma store_ptr_incr_run c l :
  in_bounds 103 (ptr l) = true ->
  store_ptr_incr c l
  = (Ret tt,
     set_ptr (ptr l + 1) (set_bootCommand (<[Z.to_nat (ptr l) := c]> (bootCommand l)) l),
     [Store A_bootCommand (ptr l)]).
Proof.
  intros H. unfold store_ptr_incr.
  eapply bind_Ret_quiet; [reflexivity|].
  eapply bind_Ret_then_quiet; [apply store_bootCommand_run; exact H|reflexivity].
Qed.

(** One round: the byte at [i] goes to [*ptr], a NUL as a space. *)
Lemma copy_round_run i c l :
  in_bounds 100 i = true -> argBuffer l !! Z.to_nat i = Some c ->
  in_bounds 103 (ptr l) = true ->
  (load_argBuffer i ≫= fun c =>
     if decide (c = NUL) then store_ptr_incr SPACE else store_ptr_incr c) l
  = (Ret tt,
     set_ptr (ptr l + 1)
       (set_bootCommand (<[Z.to_nat (ptr l) := nul_to_space c]> (bootCommand l)) l),
     [Store A_bootCommand (ptr l)]).
Proof.
  intros Hi Hc Hp.
  eapply bind_Ret_quiet; [apply load_argBuffer_run; eassumption|].
  unfold nul_to_space. destruct (decide (c = NUL)); now apply store_ptr_incr_run.
Qed.

(** [n] rounds from index [i], with [ptr] at [bootCommand + i]: the bytes
    [i .. i+n-1] of [argBuffer] are copied over those of [bootCommand],
    NULs as spaces, and nothing else changes. *)
Lemma copy_loop_run n : forall i v buf done rest,
  length done = Z.to_nat i -> 0 <= i -> i + Z.of_nat n <= 100 ->
  (Z.to_nat i + n <= length buf)%nat -> (n <= length rest)%nat ->
  for_loop n i
    (fun i => load_argBuffer i ≫= fun c =>
       if decide (c = NUL) then store_ptr_incr SPACE else store_ptr_incr c)
    {| initArgs := v; argBuffer := buf; bootCommand := done ++ rest; ptr := i |}
  = (Ret tt,
     {| initArgs := v; argBuffer := buf;
        bootCommand := done ++ (nul_to_space <$> take n (drop (Z.to_nat i) buf)) ++ drop n rest;
        ptr := i + Z.of_nat n |},
     Store A_bootCommand <$> seqZ i (Z.of_nat n)).
Proof.
  induction n as [|n IH]; intros i v buf done rest Hdone Hi Hfit Hbuf Hrest.
  - cbn [for_loop take drop fmap list_fmap app]. rewrite drop_0, Z.add_0_r. reflexivity.
  - cbn [for_loop]. rewrite seqZ_succ. cbn [fmap list_fmap].
    destruct (lookup_lt_is_Some_2 buf (Z.to_nat i)) as [c Hc]; [lia|].
    destruct rest as [|r rest]; [cbn [length] in Hrest; lia|].
    eapply bind_Ret_one.
    + apply copy_round_run; [unfold in_bounds; lia|exact Hc|unfold in_bounds; cbn [ptr]; lia].
    + unfold set_ptr, set_bootCommand. cbn [initArgs argBuffer bootCommand ptr].
      rewrite insert_app_r_alt by lia. rewrite Hdone, Nat.sub_diag.
      cbn [insert list_insert].
      specialize (IH (i + 1) v buf (done ++ [nul_to_space c]) rest).
      rewrite <- !app_assoc in IH. cbn [app] in IH.
      rewrite IH.
      * rewrite (drop_S _ _ _ Hc). cbn [take fmap list_fmap app drop].
        replace (Z.to_nat (i + 1)) with (S (Z.to_nat i)) by lia.
        replace (i + Z.of_nat (S n)) with (i + 1 + Z.of_nat n) by lia. reflexivity.
      * rewrite length_app. cbn [length]. lia.
      * lia.
      * lia.
      * lia.
      * cbn [length] in Hrest. lia.
Qed.

(** Writing a NUL over the NULs that [bzero] left changes nothing. *)
Lemma insert_NUL_after (copied : list ascii) m :
  <[length copied := NUL]> (copied ++ replicate m NUL) = copied ++ replicate m NUL.
Proof.
  rewrite insert_app_r_alt by lia. rewrite Nat.sub_diag.
  destruct m; reflexivity.
Qed.

(** ** The argument vector *)

(** Lines 206 to 219 for a positive [argLength] within the buffer: the
    command line is the copy of the first [argLength] bytes, NULs as
    spaces; slots 1 and 2 are set; the end marker goes to slot
    [argc + 2], which is a fault when that is not one of the ten slots. *)
Lemma Init_vector_run argc len v buf p :
  0 < len <= 100 -> length buf = 100%nat ->
  Init_vector argc len
    {| initArgs := v; argBuffer := buf; bootCommand := replicate 103 NUL; ptr := p |}
  = ((if in_bounds 10 (argc + 2) then Ret tt else Halt (OutOfBounds A_initArgs (argc + 2))),
     {| initArgs :=
          (if in_bounds 10 (argc + 2)
           then <[Z.to_nat (argc + 2) := NIL]> (<[2%nat := BootCommand]> (<[1%nat := Lit "-b"]> v))
           else <[2%nat := BootCommand]> (<[1%nat := Lit "-b"]> v));
        argBuffer := buf;
        bootCommand := (nul_to_space <$> take (Z.to_nat len) buf)
                       ++ replicate (103 - Z.to_nat len) NUL;
        ptr := len |},
     Store A_initArgs 1
       :: (Store A_bootCommand <$> seqZ 0 len)
       ++ [Store A_bootCommand len; Store A_initArgs 2; Store A_initArgs (argc + 2)]).
Proof.
  intros Hlen Hbuf. unfold Init_vector.
  replace (len >? 0) with true by lia.
  eapply bind_Ret_one; [now apply store_initArgs_run|].
  eapply bind_Ret_quiet; [reflexivity|].
  eapply bind_Ret.
  { unfold for_. rewrite Z.sub_0_r.
    pose proof (copy_loop_run (Z.to_nat len) 0 (<[1%nat := Lit "-b"]> v) buf []
                  (replicate 103 NUL)) as Hloop.
    rewrite Z2Nat.id in Hloop by lia.
    apply Hloop; [reflexivity|lia|lia|cbn; lia|rewrite length_replicate; lia]. }
  cbn [app Z.to_nat drop Z.add].
  rewrite drop_replicate.
  eapply bind_Ret_one.
  { apply store_bootCommand_run. unfold in_bounds. lia. }
  unfold set_bootCommand. cbn [initArgs argBuffer bootCommand ptr].
  assert (Hcopied : length (nul_to_space <$> take (Z.to_nat len) buf) = Z.to_nat len)
    by (rewrite length_fmap, length_take; lia).
  rewrite <- Hcopied at 1. rewrite insert_NUL_after.
  eapply bind_Ret_one; [now apply store_initArgs_run|].
  unfold set_initArgs. cbn [initArgs argBuffer bootCommand ptr].
  destruct (in_bounds 10 (argc + 2)) eqn:Hslot.
  - now rewrite store_initArgs_run.
  - now rewrite store_initArgs_fault.
Qed.

(** Lines 206 to 219 when there is nothing to pass on. *)
Lemma Init_vector_none argc l :
  Init_vector argc 0 l
  = (Ret tt, set_initArgs (<[1%nat := NIL]> (initArgs l)) l, [Store A_initArgs 1]).
Proof. reflexivity. Qed.

(** ** The two attempts to exec *)

Lemma Proc_KernExec_returns w tl buf bc p x status :
  Proc_KernExec_result w x = Some status ->
  Proc_KernExec w
    {| initArgs := x :: tl; argBuffer := buf; bootCommand := bc; ptr := p |}
  = (Ret status,
     {| initArgs := x :: tl; argBuffer := buf; bootCommand := bc; ptr := p |},
     [KernExec x (x :: tl)]).
Proof.
  intros H. unfold Proc_KernExec.
  eapply bind_Ret_quiet; [reflexivity|].
  eapply bind_Ret_quiet; [reflexivity|].
  eapply bind_Ret_then_quiet; [reflexivity|].
  cbn [initArgs]. now rewrite H.
Qed.

Lemma Proc_KernExec_replaces w tl buf bc p x :
  Proc_KernExec_result w x = None ->
  Proc_KernExec w
    {| initArgs := x :: tl; argBuffer := buf; bootCommand := bc; ptr := p |}
  = (Halt Replaced,
     {| initArgs := x :: tl; argBuffer := buf; bootCommand := bc; ptr := p |},
     [KernExec x (x :: tl)]).
Proof.
  intros H. unfold Proc_KernExec.
  eapply bind_Ret_quiet; [reflexivity|].
  eapply bind_Ret_quiet; [reflexivity|].
  eapply bind_Ret_then_quiet; [reflexivity|].
  cbn [initArgs]. now rewrite H.
Qed.

Lemma Init_alternate_none w a0 tl buf bc p :
  main_AltInit w = None ->
  Init_alternate w
    {| initArgs := a0 :: tl; argBuffer := buf; bootCommand := bc; ptr := p |}
  = (Ret tt,
     {| initArgs := a0 :: tl; argBuffer := buf; bootCommand := bc; ptr := p |},
     []).
Proof. intros H. unfold Init_alternate. now rewrite H. Qed.

Lemma Init_alternate_fails w a0 tl buf bc p alt status :
  main_AltInit w = Some alt ->
  Proc_KernExec_result w (Lit alt) = Some status ->
  Init_alternate w
    {| initArgs := a0 :: tl; argBuffer := buf; bootCommand := bc; ptr := p |}
  = (Ret tt,
     {| initArgs := Lit alt :: tl; argBuffer := buf; bootCommand := bc; ptr := p |},
     [Store A_initArgs 0; Execing (Lit alt); KernExec (Lit alt) (Lit alt :: tl);
      CouldNotExec (Lit alt) status]).
Proof.
  intros Hcfg Hexec. unfold Init_alternate. rewrite Hcfg.
  eapply bind_Ret_one; [reflexivity|].
  eapply bind_Ret_quiet; [reflexivity|].
  eapply bind_Ret_one; [reflexivity|].
  eapply bind_Ret_one; [apply (Proc_KernExec_returns _ _ _ _ _ _ _ Hexec)|].
  eapply bind_Ret_quiet; [reflexivity|].
  reflexivity.
Qed.

Lemma Init_alternate_replaces w a0 tl buf bc p alt :
  main_AltInit w = Some alt ->
  Proc_KernExec_result w (Lit alt) = None ->
  Init_alternate w
    {| initArgs := a0 :: tl; argBuffer := buf; bootCommand := bc; ptr := p |}
  = (Halt Replaced,
     {| initArgs := Lit alt :: tl; argBuffer := buf; bootCommand := bc; ptr := p |},
     [Store A_initArgs 0; Execing (Lit alt); KernExec (Lit alt) (Lit alt :: tl)]).
Proof.
  intros Hcfg Hexec. unfold Init_alternate. rewrite Hcfg.
  eapply bind_Ret_one; [reflexivity|].
  eapply bind_Ret_quiet; [reflexivity|].
  eapply bind_Ret_one; [reflexivity|].
  eapply bind_Halt. apply (Proc_KernExec_replaces _ _ _ _ _ _ Hexec).
Qed.

Lemma Init_canonical_fails w a0 tl buf bc p status :
  Proc_KernExec_result w (Lit (INIT w)) = Some status ->
  Init_canonical w
    {| initArgs := a0 :: tl; argBuffer := buf; bootCommand := bc; ptr := p |}
  = (Halt (Exited 1),
     {| initArgs := Lit (INIT w) :: tl; argBuffer := buf; bootCommand := bc; ptr := p |},
     Open (INIT w) :: open_complaint w
     ++ [Store A_initArgs 0; KernExec (Lit (INIT w)) (Lit (INIT w) :: tl);
         CouldNotExec (Lit (INIT w)) status; Exit 1]).
Proof.
  intros Hexec. unfold Init_canonical.
  eapply bind_Ret_one; [reflexivity|].
  eapply bind_Ret.
  { unfold open_complaint.
    destruct (Fs_Open_result w (INIT w) =? SUCCESS); reflexivity. }
  eapply bind_Ret_one; [reflexivity|].
  eapply bind_Ret_one; [apply (Proc_KernExec_returns _ _ _ _ _ _ _ Hexec)|].
  eapply bind_Ret_quiet; [reflexivity|].
  reflexivity.
Qed.

Lemma Init_canonical_replaces w a0 tl buf bc p :
  Proc_KernExec_result w (Lit (INIT w)) = None ->
  Init_canonical w
    {| initArgs := a0 :: tl; argBuffer := buf; bootCommand := bc; ptr := p |}
  = (Halt Replaced,
     {| initArgs := Lit (INIT w) :: tl; argBuffer := buf; bootCommand := bc; ptr := p |},
     Open (INIT w) :: open_complaint w
     ++ [Store A_initArgs 0; KernExec (Lit (INIT w)) (Lit (INIT w) :: tl)]).
Proof.
  intros Hexec. unfold Init_canonical.
  eapply bind_Ret_one; [reflexivity|].
  eapply bind_Ret.
  { unfold open_complaint.
    destruct (Fs_Open_result w (INIT w) =? SUCCESS); reflexivity. }
  eapply bind_Ret_one; [reflexivity|].
  eapply bind_Halt. apply (Proc_KernExec_replaces _ _ _ _ _ _ Hexec).
Qed.

(** ** The whole argument phase *)

Lemma frame_after_GetBootArgs_sizes frags :
  boot_contract frags ->
  length (initArgs (frame_after_GetBootArgs frags)) = 10%nat /\
  length (argBuffer (frame_after_GetBootArgs frags)) = 100%nat.
Proof.
  intros [Hn Hb]. unfold frame_after_GetBootArgs. cbn [initArgs argBuffer].
  rewrite !length_app, length_fmap, fragment_offsets_length, !length_replicate.
  cbn [length]. lia.
Qed.

Lemma Init_arguments_run w fs f k :
  boot_fragments w = fs ++ [f] ->
  boot_contract (fs ++ [f]) ->
  strlen_in (list_ascii_of_string f ++ [NUL]) = Some k ->
  let n := Z.of_nat (length fs) + 1 in
  let len := Z.of_nat (length (fragment_bytes fs)) + k + 1 in
  Init_arguments w entry
  = ((if in_bounds 10 (n + 2) then Ret tt else Halt (OutOfBounds A_initArgs (n + 2))),
     frame_after_vector (fs ++ [f]) len,
     argument_events n len).
Proof.
  intros Hw Hc Hk n len. unfold Init_arguments.
  destruct (strlen_in_bound (list_ascii_of_string f) []) as (k' & Hk' & Hrange).
  rewrite Hk in Hk'. injection Hk' as <-. rewrite list_ascii_length in Hrange.
  destruct (frame_after_GetBootArgs_sizes _ Hc) as [Hv Hbuf].
  pose proof Hc as [Hn Hb]. rewrite fragment_bytes_snoc_length in Hb.
  rewrite length_app in Hn. cbn [length] in Hn.
  unfold argument_events.
  change (GetBootArgs 8 100 :: ?a ++ ?b) with ((GetBootArgs 8 100 :: a) ++ b).
  eapply bind_Ret; [apply (Init_length_run w fs f k Hw Hc Hk)|].
  cbv beta iota.
  etransitivity.
  { apply (Init_vector_run (Z.of_nat (length fs) + 1) len
             (initArgs (frame_after_GetBootArgs (fs ++ [f])))
             (argBuffer (frame_after_GetBootArgs (fs ++ [f]))) 0); [subst len; lia|exact Hbuf]. }
  fold n. unfold frame_after_vector.
  assert (Hidx : Z.to_nat (n + 2) = (length (fs ++ [f]) + 2)%nat)
    by (rewrite length_app; cbn [length]; lia).
  rewrite Hidx.
  destruct (in_bounds 10 (n + 2)) eqn:Hslot; [reflexivity|].
  rewrite (list_insert_ge _ (length (fs ++ [f]) + 2)%nat); [reflexivity|].
  rewrite !length_insert, Hv. unfold in_bounds in Hslot. lia.
Qed.

Lemma Init_arguments_none w :
  boot_fragments w = [] ->
  Init_arguments w entry
  = (Ret tt,
     set_initArgs (<[1%nat := NIL]> (replicate 10 Undef)) (frame_after_GetBootArgs []),
     [GetBootArgs 8 100; Store A_initArgs 1]).
Proof.
  intros Hw. unfold Init_arguments.
  eapply bind_Ret_one; [apply (Init_length_none w Hw)|reflexivity].
Qed.

(** ** The exec phase as a whole *)

Lemma Forall_exec_event_complaint w tl t :
  Forall (exec_event tl) t -> Forall (exec_event tl) (open_complaint w ++ t).
Proof.
  intros Ht. unfold open_complaint.
  destruct (Fs_Open_result w (INIT w) =? SUCCESS); [exact Ht|].
  constructor; [exact I|exact Ht].
Qed.

Ltac exec_events :=
  repeat first
    [ apply Forall_exec_event_complaint
    | apply Forall_nil_2
    | apply Forall_cons; split;
      [first [exact I | split; [eexists; reflexivity|reflexivity] | split; reflexivity]|] ].

(** Whatever the configuration and the outcome of the calls, the exec
    phase changes slot 0 only and emits exec events only. *)
Lemma Init_exec_summary w a0 tl buf bc p :
  exists r x t,
    (Init_alternate w ≫= fun _ => Init_canonical w)
      {| initArgs := a0 :: tl; argBuffer := buf; bootCommand := bc; ptr := p |}
    = (r, {| initArgs := Lit x :: tl; argBuffer := buf; bootCommand := bc; ptr := p |}, t)
    /\ Forall (exec_event tl) t.
Proof.
  destruct (main_AltInit w) as [alt|] eqn:Hcfg.
  - destruct (Proc_KernExec_result w (Lit alt)) as [s1|] eqn:H1.
    + destruct (Proc_KernExec_result w (Lit (INIT w))) as [s2|] eqn:H2.
      * eexists _, _, _. split.
        { eapply bind_Ret; [apply (Init_alternate_fails _ _ _ _ _ _ _ _ Hcfg H1)|].
          apply (Init_canonical_fails _ _ _ _ _ _ _ H2). }
        cbn [app]. exec_events.
      * eexists _, _, _. split.
        { eapply bind_Ret; [apply (Init_alternate_fails _ _ _ _ _ _ _ _ Hcfg H1)|].
          apply (Init_canonical_replaces _ _ _ _ _ _ H2). }
        cbn [app]. exec_events.
    + eexists _, _, _. split.
      { eapply bind_Halt. apply (Init_alternate_replaces _ _ _ _ _ _ _ Hcfg H1). }
      exec_events.
  - destruct (Proc_KernExec_result w (Lit (INIT w))) as [s2|] eqn:H2.
    + eexists _, _, _. split.
      { eapply bind_Ret_quiet; [apply (Init_alternate_none _ _ _ _ _ _ Hcfg)|].
        apply (Init_canonical_fails _ _ _ _ _ _ _ H2). }
      exec_events.
    + eexists _, _, _. split.
      { eapply bind_Ret_quiet; [apply (Init_alternate_none _ _ _ _ _ _ Hcfg)|].
        apply (Init_canonical_replaces _ _ _ _ _ _ H2). }
      exec_events.
Qed.

(** ** [Init] from entry to halt *)

(** With boot arguments: the events of the argument phase, then exec
    events; the exec phase leaves the buffers and the slots after the
    first as the argument phase made them.  With eight fragments [Init]
    stops at the store of the end marker. *)
Lemma Init_run_some w fs f k :
  boot_fragments w = fs ++ [f] ->
  boot_contract (fs ++ [f]) ->
  strlen_in (list_ascii_of_string f ++ [NUL]) = Some k ->
  let n := Z.of_nat (length fs) + 1 in
  let len := Z.of_nat (length (fragment_bytes fs)) + k + 1 in
  let made := frame_after_vector (fs ++ [f]) len in
  exists r l t,
    Init w entry = (r, l, argument_events n len ++ t) /\
    Forall (exec_event (tail (initArgs made))) t /\
    argBuffer l = argBuffer made /\
    bootCommand l = bootCommand made /\
    tail (initArgs l) = tail (initArgs made) /\
    (in_bounds 10 (n + 2) = false ->
     r = Halt (OutOfBounds A_initArgs (n + 2)) /\ t = []).
Proof.
  intros Hw Hc Hk n len made.
  pose proof (Init_arguments_run w fs f k Hw Hc Hk) as Hargs. cbv zeta in Hargs.
  fold n len made in Hargs.
  destruct (in_bounds 10 (n + 2)) eqn:Hslot.
  - assert (Hv : length (initArgs made) = 10%nat).
    { unfold made, frame_after_vector. cbn [initArgs]. rewrite !length_insert.
      apply (frame_after_GetBootArgs_sizes _ Hc). }
    destruct made as [v buf bc p]. cbn [initArgs argBuffer bootCommand] in *.
    destruct v as [|a0 tl]; [discriminate Hv|].
    destruct (Init_exec_summary w a0 tl buf bc p) as (r & x & t & Hrun & Ht).
    exists r, {| initArgs := Lit x :: tl; argBuffer := buf; bootCommand := bc; ptr := p |}, t.
    split; [|split; [exact Ht|repeat split; discriminate]].
    unfold Init, Init_exec. eapply bind_Ret; [exact Hargs|exact Hrun].
  - exists (Halt (OutOfBounds A_initArgs (n + 2))), made, [].
    split; [|repeat split; try discriminate; apply Forall_nil_2].
    rewrite app_nil_r. unfold Init, Init_exec. eapply bind_Halt. exact Hargs.
Qed.

(** Without boot arguments: slot 1 holds the end marker, the command line
    is never written, and the exec phase follows. *)
Lemma Init_run_none w :
  boot_fragments w = [] ->
  exists r x t,
    Init w entry
    = (r,
       {| initArgs := Lit x :: NIL :: replicate 8 Undef;
          argBuffer := replicate 100 NUL;
          bootCommand := replicate 103 NUL;
          ptr := 0 |},
       GetBootArgs 8 100 :: Store A_initArgs 1 :: t) /\
    Forall (exec_event (NIL :: replicate 8 Undef)) t.
Proof.
  intros Hw.
  destruct (Init_exec_summary w Undef (NIL :: replicate 8 Undef)
              (replicate 100 NUL) (replicate 103 NUL) 0) as (r & x & t & Hrun & Ht).
  exists r, x, t. split; [|exact Ht].
  unfold Init, Init_exec.
  change (GetBootArgs 8 100 :: Store A_initArgs 1 :: t)
    with ([GetBootArgs 8 100; Store A_initArgs 1] ++ t).
  eapply bind_Ret; [apply (Init_arguments_none w Hw)|exact Hrun].
Qed.

(** ** Where the stores of the argument phase go *)

Lemma argument_events_bootCommand n len i :
  0 <= len ->
  Store A_bootCommand i ∈ argument_events n len -> 0 <= i <= len.
Proof.
  intros Hlen. unfold argument_events.
  rewrite elem_of_cons, elem_of_app, elem_of_cons, elem_of_app.
  rewrite !list_elem_of_fmap.
  intros [H|[(j & H & _)|[H|[(j & H & Hj)|H]]]]; try discriminate H.
  - injection H as ->. apply elem_of_seqZ in Hj. lia.
  - apply elem_of_cons in H as [H|H]; [injection H as ->; lia|].
    apply elem_of_cons in H as [H|H]; [discriminate H|].
    apply elem_of_cons in H as [H|H]; [discriminate H|].
    now apply elem_of_nil in H.
Qed.

Lemma exec_event_no_bootCommand tl t i :
  Forall (exec_event tl) t -> Store A_bootCommand i ∉ t.
Proof.
  intros Ht Hin. rewrite Forall_forall in Ht.
  destruct (Ht _ Hin) as [H _]. discriminate H.
Qed.

(** The command line the argument phase leaves: the first [len] bytes are
    those of [argBuffer] with NULs as spaces, and a NUL follows. *)
Lemma command_line_shape frags len :
  0 <= len <= 100 ->
  length (argBuffer (frame_after_GetBootArgs frags)) = 100%nat ->
  let bc := bootCommand (frame_after_vector frags len) in
  length bc = 103%nat /\
  bc !! Z.to_nat len = Some NUL /\
  forall i : nat, (i < Z.to_nat len)%nat ->
    bc !! i = nul_to_space <$> argBuffer (frame_after_GetBootArgs frags) !! i.
Proof.
  intros Hlen Hbuf bc. subst bc. unfold frame_after_vector. cbn [bootCommand].
  set (buf := argBuffer (frame_after_GetBootArgs frags)) in *.
  assert (Hcopied : length (nul_to_space <$> take (Z.to_nat len) buf) = Z.to_nat len)
    by (rewrite length_fmap, length_take; lia).
  split; [|split].
  - rewrite length_app, Hcopied, length_replicate. lia.
  - rewrite lookup_app_r by lia. rewrite Hcopied, Nat.sub_diag.
    apply lookup_replicate_2. lia.
  - intros i Hi. rewrite lookup_app_l by lia.
    rewrite list_lookup_fmap, lookup_take_lt by lia. reflexivity.
Qed.

(** C10. For boot arguments within the contract, the length [Init]
    computes is at most 100, every store into [bootCommand] is inside
    its 103 bytes, and the command line ends in a NUL, at that length. *)
Theorem Init_command_line_within_buffer w :
  boot_contract (boot_fragments w) ->
  exists argc argLength,
    result (Init_length w) entry = Ret (argc, argLength) /\
    0 <= argLength <= 100 /\
    (forall i, Store A_bootCommand i ∈ trace (Init w) entry -> 0 <= i < 103) /\
    length (bootCommand (final (Init w) entry)) = 103%nat /\
    bootCommand (final (Init w) entry) !! Z.to_nat argLength = Some NUL.
Proof.
  intros Hc.
  destruct (boot_fragments w) as [|f fs _] eqn:Hw using rev_ind.
  - destruct (Init_run_none w Hw) as (r & x & t & Hrun & Ht).
    exists 0, 0. unfold result, trace, final.
    rewrite (Init_length_none w Hw), Hrun. cbn [fst snd bootCommand].
    split; [reflexivity|]. split; [lia|]. split; [|split; reflexivity].
    intros i Hi.
    apply elem_of_cons in Hi as [Hi|Hi]; [discriminate Hi|].
    apply elem_of_cons in Hi as [Hi|Hi]; [discriminate Hi|].
    destruct (exec_event_no_bootCommand _ _ i Ht Hi).
  - destruct (strlen_in_bound (list_ascii_of_string f) []) as (k & Hk & Hrange).
    rewrite list_ascii_length in Hrange.
    destruct (Init_run_some w fs f k Hw Hc Hk) as (r & l & t & Hrun & Ht & _ & Hbc & _).
    pose proof Hc as [_ Hb]. rewrite fragment_bytes_snoc_length in Hb.
    set (len := Z.of_nat (length (fragment_bytes fs)) + k + 1) in *.
    assert (Hlen : 0 <= len <= 100) by (subst len; lia).
    destruct (command_line_shape (fs ++ [f]) len Hlen) as (Hsize & Hnul & _);
      [apply (frame_after_GetBootArgs_sizes _ Hc)|].
    exists (Z.of_nat (length fs) + 1), len. unfold result, trace, final.
    rewrite (Init_length_run w fs f k Hw Hc Hk), Hrun. cbn [fst snd]. rewrite Hbc.
    split; [reflexivity|]. split; [exact Hlen|]. split; [|split; assumption].
    intros i Hi. apply elem_of_app in Hi as [Hi|Hi].
    + apply argument_events_bootCommand in Hi; lia.
    + destruct (exec_event_no_bootCommand _ _ i Ht Hi).
Qed.

Lemma Init_command_line_within_buffer_witness :
  boot_contract (boot_fragments world_two_fragments) /\
  exists argc argLength,
    result (Init_length world_two_fragments) entry = Ret (argc, argLength) /\
    0 <= argLength <= 100 /\
    (forall i, Store A_bootCommand i ∈ trace (Init world_two_fragments) entry -> 0 <= i < 103) /\
    length (bootCommand (final (Init world_two_fragments) entry)) = 103%nat /\
    bootCommand (final (Init world_two_fragments) entry) !! Z.to_nat argLength = Some NUL.
Proof.
  assert (Hc : boot_contract (boot_fragments world_two_fragments))
    by (split; vm_compute; lia).
  split; [exact Hc|].
  apply (Init_command_line_within_buffer world_two_fragments Hc).
Defined.

(** ** The command line *)

(** C1, as the specification states it, fails on its example: the command
    line [Init] builds from the two fragments is not the string without a
    trailing space. *)
Lemma Init_command_line_example_differs :
  cstring (bootCommand (final (Init world_two_fragments) entry))
  <> "root=/dev/sda1 quiet".
Proof. vm_compute. discriminate. Qed.

(** C1, amended. For boot arguments within the contract and not empty,
    the command line is the first [argLength] bytes of [argBuffer] with
    every NUL replaced by a space, followed by a NUL at [argLength]; the
    NUL that ends the last fragment is replaced as well, so for the
    fragments root=/dev/sda1 and quiet the string ends in a space. *)
Theorem Init_command_line w :
  boot_contract (boot_fragments w) ->
  boot_fragments w <> [] ->
  exists argc argLength,
    result (Init_length w) entry = Ret (argc, argLength) /\
    0 < argLength /\
    (forall i : nat, (i < Z.to_nat argLength)%nat ->
       bootCommand (final (Init w) entry) !! i
       = nul_to_space <$> argBuffer (final (Init w) entry) !! i) /\
    bootCommand (final (Init w) entry) !! Z.to_nat argLength = Some NUL /\
    (boot_fragments w = ["root=/dev/sda1"; "quiet"] ->
     cstring (bootCommand (final (Init w) entry)) = "root=/dev/sda1 quiet ").
Proof.
  intros Hc Hne.
  destruct (boot_fragments w) as [|f fs _] eqn:Hw using rev_ind; [congruence|].
  destruct (strlen_in_bound (list_ascii_of_string f) []) as (k & Hk & Hrange).
  rewrite list_ascii_length in Hrange.
  destruct (Init_run_some w fs f k Hw Hc Hk) as (r & l & t & Hrun & _ & Hbuf & Hbc & _).
  pose proof Hc as [_ Hb]. rewrite fragment_bytes_snoc_length in Hb.
  set (len := Z.of_nat (length (fragment_bytes fs)) + k + 1) in *.
  assert (Hlen : 0 <= len <= 100) by (subst len; lia).
  destruct (command_line_shape (fs ++ [f]) len Hlen) as (_ & Hnul & Hcopy);
    [apply (frame_after_GetBootArgs_sizes _ Hc)|].
  exists (Z.of_nat (length fs) + 1), len. unfold result, final.
  rewrite (Init_length_run w fs f k Hw Hc Hk), Hrun. cbn [fst snd]. rewrite Hbc, Hbuf.
  split; [reflexivity|]. split; [subst len; lia|]. split; [exact Hcopy|]. split; [exact Hnul|].
  intros Hex. change ["root=/dev/sda1"; "quiet"] with (["root=/dev/sda1"] ++ ["quiet"]) in Hex.
  apply app_inj_tail in Hex as [-> ->].
  vm_compute in Hk. injection Hk as <-. subst len. vm_compute. reflexivity.
Qed.

Lemma Init_command_line_witness :
  boot_contract (boot_fragments world_two_fragments) /\
  boot_fragments world_two_fragments <> [] /\
  cstring (bootCommand (final (Init world_two_fragments) entry)) = "root=/dev/sda1 quiet ".
Proof.
  assert (Hc : boot_contract (boot_fragments world_two_fragments))
    by (split; vm_compute; lia).
  assert (Hne : boot_fragments world_two_fragments <> []) by discriminate.
  split; [exact Hc|]. split; [exact Hne|].
  destruct (Init_command_line world_two_fragments Hc Hne) as (_ & _ & _ & _ & _ & _ & H).
  apply H. reflexivity.
Defined.

(** ** The end marker *)

(** C9. With eight fragments, which the contract allows and
    [Mach_GetBootArgs] is asked for, [Init] stores the end marker at
    [initArgs[10]], outside the ten slots, and stops there. *)
Theorem Init_end_marker_overflows :
  boot_contract (boot_fragments world_eight_fragments) /\
  result (Init world_eight_fragments) entry = Halt (OutOfBounds A_initArgs 10) /\
  last (trace (Init world_eight_fragments) entry) = Some (Store A_initArgs 10) /\
  ~ store_in_bounds (Store A_initArgs 10).
Proof.
  split; [split; vm_compute; lia|].
  split; [vm_compute; reflexivity|].
  split; [vm_compute; reflexivity|].
  cbn. lia.
Qed.

(** ** The length *)


Lemma exec_event_KernExec tl t path argv :
  Forall (exec_event tl) t -> KernExec path argv ∈ t ->
  (exists x, path = Lit x) /\ argv = path :: tl.
Proof.
  intros Ht Hin. rewrite Forall_forall in Ht. exact (Ht _ Hin).
Qed.



(** ** The argument vector *)

(** C2, as the specification states it, fails on its example: slot 3 of
    the vector is not the end marker but the pointer to the second
    fragment, so the vector has four arguments, not three. *)
Lemma Init_vector_example_slot_3 :
  initArgs (final (Init world_two_fragments) entry) !! 3%nat = Some (ArgBuffer_at 15) /\
  string_at (final (Init world_two_fragments) entry) (ArgBuffer_at 15) = Some "quiet" /\
  live_slots (initArgs (final (Init world_two_fragments) entry))
  <> [Lit "cmds/initsprite"; Lit "-b"; BootCommand].
Proof.
  split; [vm_compute; reflexivity|].
  split; [vm_compute; reflexivity|].
  vm_compute. discriminate.
Qed.

Lemma argument_events_no_exec n len path argv :
  KernExec path argv ∉ argument_events n len.
Proof.
  unfold argument_events.
  rewrite elem_of_cons, elem_of_app, elem_of_cons, elem_of_app, !list_elem_of_fmap.
  intros [H|[(j & H & _)|[H|[(j & H & _)|H]]]]; try discriminate H.
  repeat (apply elem_of_cons in H as [H|H]; [discriminate H|]).
  now apply elem_of_nil in H.
Qed.

(** The slots of the vector the argument phase makes, for [S (length fs)]
    fragments, fewer than eight. *)
Lemma vector_slots fs f len :
  boot_contract (fs ++ [f]) -> (length fs < 7)%nat ->
  let v := initArgs (frame_after_vector (fs ++ [f]) len) in
  v !! 1%nat = Some (Lit "-b") /\
  v !! 2%nat = Some BootCommand /\
  v !! (length fs + 3)%nat = Some NIL /\
  forall (j : nat) off,
    (1 <= j <= length fs)%nat ->
    fragment_offsets 0 (fs ++ [f]) !! j = Some off ->
    v !! (j + 2)%nat = Some (ArgBuffer_at off).
Proof.
  intros Hc Hn v. subst v. unfold frame_after_vector. cbn [initArgs].
  destruct (frame_after_GetBootArgs_sizes _ Hc) as [Hv _].
  set (v0 := initArgs (frame_after_GetBootArgs (fs ++ [f]))) in *.
  assert (Hfrags : (length (fs ++ [f]) + 2 = length fs + 3)%nat)
    by (rewrite length_app; cbn [length]; lia).
  rewrite Hfrags.
  split; [|split; [|split]].
  - rewrite list_lookup_insert_ne by lia. rewrite list_lookup_insert_ne by lia.
    apply list_lookup_insert_eq. lia.
  - rewrite list_lookup_insert_ne by lia.
    apply list_lookup_insert_eq. rewrite length_insert. lia.
  - apply list_lookup_insert_eq. rewrite !length_insert. lia.
  - intros j off Hj Hoff.
    rewrite !list_lookup_insert_ne by lia.
    subst v0. unfold frame_after_GetBootArgs. cbn [initArgs].
    rewrite (lookup_app_r [Undef; Undef]) by (cbn [length]; lia).
    cbn [length]. replace (j + 2 - 2)%nat with j by lia.
    rewrite lookup_app_l
      by (rewrite length_fmap, fragment_offsets_length, length_app; cbn [length]; lia).
    now rewrite list_lookup_fmap, Hoff.
Qed.

(** C2, amended. For one to seven fragments within the contract, slot 1
    of the vector is -b, slot 2 the command line, and the end marker is
    in slot [argc + 2]; the slots between, 3 to [argc + 1], still hold
    the pointers to the fragments after the first, so they are live
    arguments.  Every exec receives this vector behind its path.  For
    the fragments root=/dev/sda1 and quiet the vector is the path, -b,
    the command line with its trailing space, and quiet. *)
Theorem Init_argument_vector w fs f :
  boot_fragments w = fs ++ [f] ->
  boot_contract (fs ++ [f]) ->
  (length fs < 7)%nat ->
  let l := final (Init w) entry in
  initArgs l !! 1%nat = Some (Lit "-b") /\
  initArgs l !! 2%nat = Some BootCommand /\
  initArgs l !! (length fs + 3)%nat = Some NIL /\
  (forall (j : nat) off,
     (1 <= j <= length fs)%nat ->
     fragment_offsets 0 (fs ++ [f]) !! j = Some off ->
     initArgs l !! (j + 2)%nat = Some (ArgBuffer_at off)) /\
  (forall path argv,
     KernExec path argv ∈ trace (Init w) entry ->
     argv !! 0%nat = Some path /\ tail argv = tail (initArgs l)) /\
  (fs ++ [f] = ["root=/dev/sda1"; "quiet"] ->
   (forall path argv,
      KernExec path argv ∈ trace (Init w) entry ->
      live_slots argv = [path; Lit "-b"; BootCommand; ArgBuffer_at 15]) /\
   string_at l BootCommand = Some "root=/dev/sda1 quiet " /\
   string_at l (ArgBuffer_at 15) = Some "quiet").
Proof.
  intros Hw Hc Hn l. subst l.
  destruct (strlen_in_bound (list_ascii_of_string f) []) as (k & Hk & _).
  destruct (Init_run_some w fs f k Hw Hc Hk) as (r & l & t & Hrun & Ht & Hbuf & Hbc & Htl & _).
  set (len := Z.of_nat (length (fragment_bytes fs)) + k + 1) in *.
  destruct (vector_slots fs f len Hc Hn) as (H1 & H2 & H3 & Hmid).
  unfold final, trace. rewrite Hrun. cbn [fst snd].
  assert (Hslot : forall i : nat,
             initArgs l !! S i = initArgs (frame_after_vector (fs ++ [f]) len) !! S i)
    by (intros i; now rewrite <- !lookup_tail, Htl).
  assert (Hexec : forall path argv,
             KernExec path argv ∈ argument_events (Z.of_nat (length fs) + 1) len ++ t ->
             (exists x, path = Lit x) /\
             argv = path :: tail (initArgs (frame_after_vector (fs ++ [f]) len))).
  { intros path argv Hin. apply elem_of_app in Hin as [Hin|Hin].
    - destruct (argument_events_no_exec _ _ _ _ Hin).
    - exact (exec_event_KernExec _ _ _ _ Ht Hin). }
  split; [now rewrite Hslot|]. split; [now rewrite Hslot|].
  split; [replace (length fs + 3)%nat with (S (length fs + 2)) by lia; rewrite Hslot;
          replace (S (length fs + 2)) with (length fs + 3)%nat by lia; exact H3|].
  split.
  { intros j off Hj Hoff. replace (j + 2)%nat with (S (j + 1)) by lia. rewrite Hslot.
    replace (S (j + 1)) with (j + 2)%nat by lia. now apply Hmid. }
  split.
  { intros path argv Hin. destruct (Hexec _ _ Hin) as [_ ->]. now rewrite Htl. }
  intros Hex. change ["root=/dev/sda1"; "quiet"] with (["root=/dev/sda1"] ++ ["quiet"]) in Hex.
  apply app_inj_tail in Hex as [-> ->].
  vm_compute in Hk. injection Hk as <-.
  split; [|split].
  - intros path argv Hin. destruct (Hexec _ _ Hin) as [[x ->] ->]. reflexivity.
  - unfold string_at. rewrite Hbc. subst len. vm_compute. reflexivity.
  - unfold string_at. rewrite Hbuf. vm_compute. reflexivity.
Qed.

Lemma Init_argument_vector_witness :
  boot_fragments world_two_fragments = ["root=/dev/sda1"] ++ ["quiet"] /\
  boot_contract (["root=/dev/sda1"] ++ ["quiet"]) /\
  (length ["root=/dev/sda1"] < 7)%nat /\
  initArgs (final (Init world_two_fragments) entry) !! 4%nat = Some NIL /\
  initArgs (final (Init world_two_fragments) entry) !! 3%nat = Some (ArgBuffer_at 15).
Proof.
  assert (Hc : boot_contract (["root=/dev/sda1"] ++ ["quiet"]))
    by (split; vm_compute; lia).
  assert (Hn : (length ["root=/dev/sda1"] < 7)%nat) by (cbn; lia).
  split; [reflexivity|]. split; [exact Hc|]. split; [exact Hn|].
  destruct (Init_argument_vector world_two_fragments ["root=/dev/sda1"] "quiet"
              eq_refl Hc Hn) as (_ & _ & H3 & Hmid & _).
  split; [exact H3|].
  apply (Hmid 1%nat 15); [cbn; lia|reflexivity].
Defined.

(** ** The exec phase after a complete argument phase *)

Lemma argument_events_kind n len :
  Forall (fun e => is_argument_event e = true) (argument_events n len).
Proof.
  unfold argument_events.
  apply Forall_cons; split; [reflexivity|].
  apply Forall_app; split; [apply Forall_fmap, Forall_forall; reflexivity|].
  apply Forall_cons; split; [reflexivity|].
  apply Forall_app; split; [apply Forall_fmap, Forall_forall; reflexivity|].
  repeat (apply Forall_cons; split; [reflexivity|]). apply Forall_nil_2.
Qed.

(** With fewer than eight fragments the argument phase runs to its end,
    and leaves ten slots. *)
Lemma Init_arguments_completes w :
  boot_contract (boot_fragments w) ->
  (length (boot_fragments w) < 8)%nat ->
  exists a0 tl buf bc p t1,
    Init_arguments w entry
    = (Ret tt, {| initArgs := a0 :: tl; argBuffer := buf; bootCommand := bc; ptr := p |}, t1)
    /\ Forall (fun e => is_argument_event e = true) t1.
Proof.
  intros Hc Hn.
  destruct (boot_fragments w) as [|f fs _] eqn:Hw using rev_ind.
  - eexists _, _, _, _, _, _. split; [apply (Init_arguments_none w Hw)|].
    repeat (apply Forall_cons; split; [reflexivity|]). apply Forall_nil_2.
  - destruct (strlen_in_bound (list_ascii_of_string f) []) as (k & Hk & _).
    pose proof (Init_arguments_run w fs f k Hw Hc Hk) as Hrun. cbv zeta in Hrun.
    rewrite length_app in Hn. cbn [length] in Hn.
    replace (in_bounds 10 (Z.of_nat (length fs) + 1 + 2)) with true in Hrun
      by (unfold in_bounds; lia).
    set (len := Z.of_nat (length (fragment_bytes fs)) + k + 1) in *.
    assert (Hv : length (initArgs (frame_after_vector (fs ++ [f]) len)) = 10%nat).
    { unfold frame_after_vector. cbn [initArgs]. rewrite !length_insert.
      apply (frame_after_GetBootArgs_sizes _ Hc). }
    destruct (frame_after_vector (fs ++ [f]) len) as [v buf bc p]. cbn [initArgs] in Hv.
    destruct v as [|a0 tl]; [discriminate Hv|].
    eexists _, _, _, _, _, _. split; [exact Hrun|apply argument_events_kind].
Qed.

(** ** The exec phase from any frame *)

(** C7. From line 221 on, whatever frame the argument phase has left:
    when an alternate init is configured and both execs fail, [Init]
    ends in [Proc_Exit(1)] and has logged the two failures, the
    alternate one first; [main] ends in [Proc_Exit(0)], after its wait
    of a year. *)
Theorem Init_exhausted w alt s1 s2 a0 tl buf bc p :
  main_AltInit w = Some alt ->
  Proc_KernExec_result w (Lit alt) = Some s1 ->
  Proc_KernExec_result w (Lit (INIT w)) = Some s2 ->
  let l := {| initArgs := a0 :: tl; argBuffer := buf; bootCommand := bc; ptr := p |} in
  result (Init_exec w) l = Halt (Exited 1) /\
  filter is_CouldNotExec (trace (Init_exec w) l)
  = [CouldNotExec (Lit alt) s1; CouldNotExec (Lit (INIT w)) s2] /\
  (exists t, trace (Init_exec w) l = t ++ [Exit 1]) /\
  result (main w) tt = Halt (Exited 0) /\
  (exists t, trace (main w) tt
             = t ++ [WaitTime "time_OneYear"; MonPrintf "Leaving main()"; Exit 0]) /\
  Exited 1 <> Exited 0.
Proof.
  intros Hcfg H1 H2 l. subst l.
  assert (Hrun : Init_exec w
            {| initArgs := a0 :: tl; argBuffer := buf; bootCommand := bc; ptr := p |}
          = (Halt (Exited 1),
             {| initArgs := Lit (INIT w) :: tl; argBuffer := buf; bootCommand := bc; ptr := p |},
             [Store A_initArgs 0; Execing (Lit alt); KernExec (Lit alt) (Lit alt :: tl);
              CouldNotExec (Lit alt) s1]
             ++ Open (INIT w) :: open_complaint w
             ++ [Store A_initArgs 0; KernExec (Lit (INIT w)) (Lit (INIT w) :: tl);
                 CouldNotExec (Lit (INIT w)) s2; Exit 1])).
  { unfold Init_exec.
    eapply bind_Ret; [apply (Init_alternate_fails _ _ _ _ _ _ _ _ Hcfg H1)|].
    apply (Init_canonical_fails _ _ _ _ _ _ _ H2). }
  unfold result, trace. rewrite Hrun, main_run. cbn [fst snd].
  split; [reflexivity|]. split; [|split; [|split; [reflexivity|split; [|discriminate]]]].
  - unfold open_complaint. destruct (Fs_Open_result w (INIT w) =? SUCCESS); reflexivity.
  - eexists ([_; _; _; _] ++ Open (INIT w) :: open_complaint w ++ [_; _; _]).
    cbn [app]. rewrite <- !app_assoc. reflexivity.
  - eexists (main_before_servers ++ replicate _ CreateServer ++ [_; _; _; _; _; _; _]).
    rewrite <- !app_assoc. reflexivity.
Qed.

Lemma Init_exhausted_witness :
  main_AltInit world_two_fragments = Some "cmds/altinit" /\
  Proc_KernExec_result world_two_fragments (Lit "cmds/altinit") = Some 1 /\
  Proc_KernExec_result world_two_fragments (Lit (INIT world_two_fragments)) = Some 1 /\
  result (Init_exec world_two_fragments) entry = Halt (Exited 1) /\
  filter is_CouldNotExec (trace (Init_exec world_two_fragments) entry)
  = [CouldNotExec (Lit "cmds/altinit") 1; CouldNotExec (Lit "cmds/initsprite") 1].
Proof.
  do 3 (split; [reflexivity|]).
  destruct (Init_exhausted world_two_fragments "cmds/altinit" 1 1
              Undef (replicate 9 Undef) (replicate 100 NUL) (replicate 103 NUL) 0
              eq_refl eq_refl eq_refl)
    as (Hr & Hlog & _).
  split; [exact Hr|exact Hlog].
Defined.

(** C8. From line 221 on, whatever frame the argument phase has left: a
    failed exec of the alternate init does not end [Init] and is
    followed by the open check and the exec of INIT; without an
    alternate init these come first; and the exec of INIT follows the
    open check whatever that returned, a failure adding only a line to
    the log. *)
Theorem Init_attempts_canonical w a0 tl buf bc p :
  let l := {| initArgs := a0 :: tl; argBuffer := buf; bootCommand := bc; ptr := p |} in
  (forall alt s1,
     main_AltInit w = Some alt ->
     Proc_KernExec_result w (Lit alt) = Some s1 ->
     exists t1 t2,
       trace (Init_exec w) l
       = t1 ++ [CouldNotExec (Lit alt) s1; Open (INIT w)] ++ open_complaint w
            ++ [Store A_initArgs 0; KernExec (Lit (INIT w)) (Lit (INIT w) :: tl)] ++ t2) /\
  (main_AltInit w = None ->
   exists t2,
     trace (Init_exec w) l
     = [Open (INIT w)] ++ open_complaint w
       ++ [Store A_initArgs 0; KernExec (Lit (INIT w)) (Lit (INIT w) :: tl)] ++ t2) /\
  (Fs_Open_result w (INIT w) <> SUCCESS ->
   open_complaint w = [CantOpen (INIT w) (Fs_Open_result w (INIT w))]).
Proof.
  intros l. subst l. split; [|split].
  - intros alt s1 Hcfg H1.
    exists [Store A_initArgs 0; Execing (Lit alt); KernExec (Lit alt) (Lit alt :: tl)].
    destruct (Proc_KernExec_result w (Lit (INIT w))) as [s2|] eqn:H2.
    + exists [CouldNotExec (Lit (INIT w)) s2; Exit 1].
      unfold trace, Init_exec.
      erewrite bind_Ret; [|apply (Init_alternate_fails _ _ _ _ _ _ _ _ Hcfg H1)
                          |apply (Init_canonical_fails _ _ _ _ _ _ _ H2)].
      cbn [snd app]. rewrite <- ?app_assoc. reflexivity.
    + exists [].
      unfold trace, Init_exec.
      erewrite bind_Ret; [|apply (Init_alternate_fails _ _ _ _ _ _ _ _ Hcfg H1)
                          |apply (Init_canonical_replaces _ _ _ _ _ _ H2)].
      cbn [snd app]. rewrite <- ?app_assoc. reflexivity.
  - intros Hcfg.
    destruct (Proc_KernExec_result w (Lit (INIT w))) as [s2|] eqn:H2.
    + exists [CouldNotExec (Lit (INIT w)) s2; Exit 1].
      unfold trace, Init_exec.
      erewrite bind_Ret_quiet; [|apply (Init_alternate_none _ _ _ _ _ _ Hcfg)
                                |apply (Init_canonical_fails _ _ _ _ _ _ _ H2)].
      cbn [snd app]. rewrite <- ?app_assoc. reflexivity.
    + exists [].
      unfold trace, Init_exec.
      erewrite bind_Ret_quiet; [|apply (Init_alternate_none _ _ _ _ _ _ Hcfg)
                                |apply (Init_canonical_replaces _ _ _ _ _ _ H2)].
      cbn [snd app]. rewrite <- ?app_assoc. reflexivity.
  - intros Hopen. unfold open_complaint.
    destruct (Fs_Open_result w (INIT w) =? SUCCESS) eqn:Heq; [|reflexivity].
    apply Z.eqb_eq in Heq. contradiction.
Qed.

Lemma Init_attempts_canonical_witness :
  main_AltInit world_two_fragments = Some "cmds/altinit" /\
  Proc_KernExec_result world_two_fragments (Lit "cmds/altinit") = Some 1 /\
  Fs_Open_result world_two_fragments (INIT world_two_fragments) <> SUCCESS /\
  exists t1 t2,
    trace (Init_exec world_two_fragments) entry
    = t1 ++ [CouldNotExec (Lit "cmds/altinit") 1; Open "cmds/initsprite"]
         ++ [CantOpen "cmds/initsprite" 2]
         ++ [Store A_initArgs 0;
             KernExec (Lit "cmds/initsprite") (Lit "cmds/initsprite" :: replicate 9 Undef)]
         ++ t2.
Proof.
  do 2 (split; [reflexivity|]). split; [discriminate|].
  destruct (Init_attempts_canonical world_two_fragments
              Undef (replicate 9 Undef) (replicate 100 NUL) (replicate 103 NUL) 0)
    as (Hfalls & _ & _).
  apply (Hfalls "cmds/altinit" 1); reflexivity.
Defined.

(** ** The stores, below eight fragments *)

Lemma argument_events_in_bounds n len :
  0 <= n < 8 -> 0 <= len <= 100 ->
  Forall store_in_bounds (argument_events n len).
Proof.
  intros Hn Hlen. unfold argument_events.
  apply Forall_cons; split; [exact I|].
  apply Forall_app; split.
  { apply Forall_fmap, Forall_forall. intros i Hi. apply elem_of_seqZ in Hi. cbn. lia. }
  apply Forall_cons; split; [cbn; lia|].
  apply Forall_app; split.
  { apply Forall_fmap, Forall_forall. intros i Hi. apply elem_of_seqZ in Hi. cbn. lia. }
  repeat (apply Forall_cons; split; [cbn; lia|]). apply Forall_nil_2.
Qed.

Lemma exec_event_in_bounds tl t :
  Forall (exec_event tl) t -> Forall store_in_bounds t.
Proof.
  intros Ht. eapply Forall_impl; [exact Ht|].
  intros [] He; try exact I.
  destruct He as [-> ->]. cbn. lia.
Qed.

(** With fewer than eight fragments every store of [Init] is inside its
    array: the overflow of the end marker needs all eight. *)
Lemma Init_stores_in_bounds w :
  boot_contract (boot_fragments w) ->
  (length (boot_fragments w) < 8)%nat ->
  Forall store_in_bounds (trace (Init w) entry).
Proof.
  intros Hc Hn.
  destruct (boot_fragments w) as [|f fs _] eqn:Hw using rev_ind.
  - destruct (Init_run_none w Hw) as (r & x & t & Hrun & Ht).
    unfold trace. rewrite Hrun. cbn [snd].
    apply Forall_cons; split; [exact I|].
    apply Forall_cons; split; [cbn; lia|].
    exact (exec_event_in_bounds _ _ Ht).
  - destruct (strlen_in_bound (list_ascii_of_string f) []) as (k & Hk & Hrange).
    rewrite list_ascii_length in Hrange.
    destruct (Init_run_some w fs f k Hw Hc Hk) as (r & l & t & Hrun & Ht & _).
    pose proof Hc as [_ Hb]. rewrite fragment_bytes_snoc_length in Hb.
    rewrite length_app in Hn. cbn [length] in Hn.
    unfold trace. rewrite Hrun. cbn [snd].
    apply Forall_app; split.
    + apply argument_events_in_bounds; lia.
    + exact (exec_event_in_bounds _ _ Ht).
Qed.

(** * Further properties of [Init] and [main] *)

(** ** The address of [argBuffer] *)

Lemma bind_ext {L A B} (m : M L A) (k k' : A -> M L B) l :
  (forall a l1, k a l1 = k' a l1) -> (m ≫= k) l = (m ≫= k') l.
Proof.
  intros Hk. unfold mbind, M_bind, bind.
  destruct (m l) as [[[a|h] l1] t1]; [now rewrite Hk|reflexivity].
Qed.

(** The two casts wrap around in the same way, so their difference does
    not see the address. *)
Lemma to_int_cancel base off n :
  to_int (to_int (base + off) + n + 1 - to_int base) = to_int (off + n + 1).
Proof.
  unfold to_int.
  change (2 ^ 31) with 2147483648. change (2 ^ 32) with 4294967296.
  Z.div_mod_to_equations. lia.
Qed.

Lemma bind_cong {L A B} (m m' : M L A) (k k' : A -> M L B) l :
  m l = m' l -> (forall a l1, k a l1 = k' a l1) -> (m ≫= k) l = (m' ≫= k') l.
Proof.
  intros Hm Hk. unfold mbind, M_bind, bind. rewrite Hm.
  destruct (m' l) as [[[a|h] l1] t1]; [now rewrite Hk|reflexivity].
Qed.

Lemma bind_ret_l {L A B} (a : A) (k : A -> M L B) l :
  (ret a ≫= k) l = k a l.
Proof.
  unfold mbind, M_bind, bind, ret. now destruct (k a l) as [[r l2] t2].
Qed.

Lemma Init_length_address a w l :
  Init_length (set_argBuffer_addr a w) l = Init_length w l.
Proof.
  unfold Init_length.
  apply bind_ext. intros _ l1.
  apply bind_cong; [reflexivity|]. intros argc l2.
  apply bind_cong; [|reflexivity].
  destruct (argc >? 0); [|reflexivity].
  apply bind_ext. intros p l3.
  destruct p as [|s|off| |]; try reflexivity.
  cbn [int_of_charp set_argBuffer_addr argBuffer_addr].
  rewrite !bind_ret_l.
  apply bind_ext. intros n l4.
  unfold mret, M_ret. now rewrite !to_int_cancel.
Qed.

(** X1. Where [argBuffer] lies in memory makes no difference to [Init]:
    the 32-bit casts of the two pointers may wrap around, and the length
    computed from them, the frame and the events are the same. *)
Theorem Init_address_independent a w :
  Init (set_argBuffer_addr a w) entry = Init w entry.
Proof.
  unfold Init, Init_exec. apply bind_cong; [|reflexivity].
  unfold Init_arguments. apply bind_cong; [|reflexivity].
  apply Init_length_address.
Qed.

(** ** The stores and the number of fragments *)

Lemma Init_eight_fragments_store w :
  boot_contract (boot_fragments w) ->
  length (boot_fragments w) = 8%nat ->
  Store A_initArgs 10 ∈ trace (Init w) entry.
Proof.
  intros Hc Hn.
  destruct (boot_fragments w) as [|f fs _] eqn:Hw using rev_ind; [discriminate Hn|].
  destruct (strlen_in_bound (list_ascii_of_string f) []) as (k & Hk & _).
  destruct (Init_run_some w fs f k Hw Hc Hk) as (r & l & t & Hrun & _).
  rewrite length_app in Hn. cbn [length] in Hn.
  unfold trace. rewrite Hrun. cbn [snd].
  apply elem_of_app. left. unfold argument_events.
  replace (Z.of_nat (length fs) + 1 + 2) with 10 by lia.
  apply elem_of_cons. right. apply elem_of_app. right.
  apply elem_of_cons. right. apply elem_of_app. right.
  do 2 (apply elem_of_cons; right). apply elem_of_cons. now left.
Qed.

(** X2. For boot arguments within the contract, every store of [Init]
    is inside its array exactly when there are fewer than eight
    fragments: the store of the end marker is the only one that can leave
    [initArgs], and it does so for every input with eight fragments. *)
Theorem Init_stores_in_bounds_iff w :
  boot_contract (boot_fragments w) ->
  Forall store_in_bounds (trace (Init w) entry)
  <-> (length (boot_fragments w) < 8)%nat.
Proof.
  intros Hc. split.
  - intros Hall.
    destruct (decide (length (boot_fragments w) < 8)%nat) as [|Hge]; [assumption|exfalso].
    assert (Hn : length (boot_fragments w) = 8%nat) by (destruct Hc; lia).
    rewrite Forall_forall in Hall.
    specialize (Hall _ (Init_eight_fragments_store w Hc Hn)). cbn in Hall. lia.
  - apply (Init_stores_in_bounds w Hc).
Qed.

Lemma Init_stores_in_bounds_iff_witness :
  boot_contract (boot_fragments world_eight_fragments) /\
  ~ Forall store_in_bounds (trace (Init world_eight_fragments) entry).
Proof.
  assert (Hc : boot_contract (boot_fragments world_eight_fragments))
    by (split; vm_compute; lia).
  split; [exact Hc|].
  intros Hall. apply (Init_stores_in_bounds_iff world_eight_fragments Hc) in Hall.
  vm_compute in Hall. lia.
Defined.

(** ** The command line as a string *)

Lemma nul_to_space_not_NUL c : nul_to_space c <> NUL.
Proof.
  unfold nul_to_space. destruct (decide (c = NUL)); [discriminate|assumption].
Qed.

(** A string read up to a NUL that follows bytes without one. *)
Lemma cstring_app s r :
  NUL ∉ s -> cstring (s ++ NUL :: r) = string_of_list_ascii s.
Proof.
  induction s as [|c s IH]; intros Hs; cbn [app cstring string_of_list_ascii].
  - now destruct (decide (NUL = NUL)).
  - destruct (decide (c = NUL)) as [->|_].
    + exfalso. apply Hs. left.
    + rewrite IH; [reflexivity|]. intros Hin. apply Hs. now right.
Qed.

Lemma string_of_list_ascii_length s :
  String.length (string_of_list_ascii s) = length s.
Proof. induction s as [|c s IH]; cbn; [reflexivity|now rewrite IH]. Qed.

Lemma list_ascii_append s t :
  list_ascii_of_string (String.append s t)
  = list_ascii_of_string s ++ list_ascii_of_string t.
Proof.
  induction s as [|c s IH]; [reflexivity|].
  change (String.append (String c s) t) with (String c (String.append s t)).
  cbn [list_ascii_of_string app]. now rewrite IH.
Qed.

Lemma nul_to_space_id (s : list ascii) : NUL ∉ s -> nul_to_space <$> s = s.
Proof.
  induction s as [|c s IH]; intros Hs; [reflexivity|].
  cbn [fmap list_fmap]. unfold nul_to_space at 1.
  destruct (decide (c = NUL)) as [->|_]; [exfalso; apply Hs; left|].
  f_equal. apply IH. intros Hin. apply Hs. now right.
Qed.

(** The copy of the fragments' bytes, NULs as spaces, spells the
    fragments joined. *)
Lemma nul_to_space_fragment_bytes frags :
  Forall nul_free frags ->
  nul_to_space <$> fragment_bytes frags = list_ascii_of_string (join_fragments frags).
Proof.
  induction 1 as [|f fs Hf _ IH]; [reflexivity|].
  rewrite fragment_bytes_cons, fmap_app. cbn [fmap list_fmap join_fragments].
  rewrite list_ascii_append. cbn [list_ascii_of_string].
  rewrite (nul_to_space_id _ Hf), IH. unfold nul_to_space.
  now destruct (decide (NUL = NUL)).
Qed.

(** The string in [bootCommand] when the argument phase is over. *)
Lemma command_line_string frags len :
  0 <= len <= 100 ->
  cstring (bootCommand (frame_after_vector frags len))
  = string_of_list_ascii
      (nul_to_space <$> take (Z.to_nat len) (argBuffer (frame_after_GetBootArgs frags))).
Proof.
  intros Hlen. unfold frame_after_vector. cbn [bootCommand].
  replace (103 - Z.to_nat len)%nat with (S (102 - Z.to_nat len)) by lia.
  cbn [replicate]. apply cstring_app.
  intros Hin. apply list_elem_of_fmap in Hin as (c & Hc & _).
  symmetry in Hc. exact (nul_to_space_not_NUL c Hc).
Qed.

(** X3. For boot arguments within the contract and not empty, the
    command line [Init] hands on is a string of exactly [argLength]
    characters; when no fragment holds a NUL of its own, it is the
    fragments in their order, each followed by one space. *)
Theorem Init_command_line_joins_fragments w :
  boot_contract (boot_fragments w) ->
  boot_fragments w <> [] ->
  (exists argc argLength,
     result (Init_length w) entry = Ret (argc, argLength) /\
     Z.of_nat (String.length (cstring (bootCommand (final (Init w) entry)))) = argLength) /\
  (Forall nul_free (boot_fragments w) ->
   cstring (bootCommand (final (Init w) entry)) = join_fragments (boot_fragments w)).
Proof.
  intros Hc Hne.
  destruct (boot_fragments w) as [|f fs _] eqn:Hw using rev_ind; [congruence|].
  destruct (strlen_in_bound (list_ascii_of_string f) []) as (k & Hk & Hrange).
  rewrite list_ascii_length in Hrange.
  destruct (Init_run_some w fs f k Hw Hc Hk) as (r & l & t & Hrun & _ & _ & Hbc & _).
  pose proof Hc as [_ Hb]. rewrite fragment_bytes_snoc_length in Hb.
  destruct (frame_after_GetBootArgs_sizes _ Hc) as [_ Hbuf].
  set (len := Z.of_nat (length (fragment_bytes fs)) + k + 1) in *.
  assert (Hlen : 0 <= len <= 100) by (subst len; lia).
  unfold result, final. rewrite (Init_length_run w fs f k Hw Hc Hk), Hrun. cbn [fst snd].
  rewrite Hbc, (command_line_string _ _ Hlen).
  split.
  - exists (Z.of_nat (length fs) + 1), len. split; [reflexivity|].
    rewrite string_of_list_ascii_length, length_fmap, length_take. lia.
  - intros Hfree. pose proof Hfree as Hfree'.
    rewrite Forall_app, Forall_singleton in Hfree'. destruct Hfree' as [_ Hf].
    rewrite (strlen_in_app _ [] Hf), list_ascii_length in Hk. injection Hk as <-.
    replace (Z.to_nat len) with (length (fragment_bytes (fs ++ [f])))
      by (rewrite fragment_bytes_snoc_length; subst len; lia).
    unfold frame_after_GetBootArgs. cbn [argBuffer].
    rewrite take_app_length, (nul_to_space_fragment_bytes _ Hfree).
    apply string_of_list_ascii_of_string.
Qed.

Lemma Init_command_line_joins_fragments_witness :
  boot_contract (boot_fragments world_two_fragments) /\
  boot_fragments world_two_fragments <> [] /\
  Forall nul_free (boot_fragments world_two_fragments) /\
  cstring (bootCommand (final (Init world_two_fragments) entry))
  = join_fragments ["root=/dev/sda1"; "quiet"].
Proof.
  assert (Hc : boot_contract (boot_fragments world_two_fragments))
    by (split; vm_compute; lia).
  assert (Hne : boot_fragments world_two_fragments <> []) by discriminate.
  assert (Hfree : Forall nul_free (boot_fragments world_two_fragments)).
  { repeat constructor; unfold nul_free; intros H;
      repeat (apply elem_of_cons in H as [H|H]; [discriminate H|]);
      now apply elem_of_nil in H. }
  split; [exact Hc|]. split; [exact Hne|]. split; [exact Hfree|].
  destruct (Init_command_line_joins_fragments world_two_fragments Hc Hne) as [_ H].
  exact (H Hfree).
Defined.

(** ** The vector as strings *)

Lemma live_slots_app v r :
  NIL ∉ v -> live_slots (v ++ NIL :: r) = v.
Proof.
  induction v as [|p v IH]; intros Hv; cbn [app live_slots].
  - now destruct (decide (NIL = NIL)).
  - destruct (decide (p = NIL)) as [->|_]; [exfalso; apply Hv; left|].
    f_equal. apply IH. intros Hin. apply Hv. now right.
Qed.

Lemma insert_end_marker (v pad : list charp) x :
  <[length v := x]> (v ++ Undef :: pad) = v ++ x :: pad.
Proof.
  induction v as [|p v IH]; [reflexivity|].
  cbn [length app]. change (<[S ?i := x]> (p :: ?l)) with (p :: <[i := x]> l).
  now rewrite IH.
Qed.

(** The slots after the first, for a first fragment [f1] and up to six
    more: -b, the command line, the pointers to the fragments after the
    first, the end marker, and the slots never written. *)
Lemma vector_tail f1 rest len :
  (length rest < 7)%nat ->
  tail (initArgs (frame_after_vector (f1 :: rest) len))
  = Lit "-b" :: BootCommand
    :: (ArgBuffer_at <$> fragment_offsets (0 + Z.of_nat (String.length f1) + 1) rest)
    ++ NIL :: replicate (6 - length rest) Undef.
Proof.
  intros Hn. unfold frame_after_vector, frame_after_GetBootArgs.
  cbn [initArgs fragment_offsets fmap list_fmap app length].
  replace (S (length rest) + 2)%nat with (S (S (S (length rest)))) by lia.
  replace (8 - S (length rest))%nat with (S (6 - length rest)) by lia.
  cbn [insert list_insert tail replicate]. do 2 f_equal.
  rewrite <- (fragment_offsets_length (0 + Z.of_nat (String.length f1) + 1) rest) at 1.
  rewrite <- (length_fmap ArgBuffer_at).
  apply insert_end_marker.
Qed.

(** Each pointer [Mach_GetBootArgs] stores designates its fragment. *)
Lemma strings_at_offsets frags : forall off before after,
  Forall nul_free frags ->
  length before = Z.to_nat off -> 0 <= off ->
  (fun o => cstring (drop (Z.to_nat o) (before ++ fragment_bytes frags ++ after)))
    <$> fragment_offsets off frags
  = frags.
Proof.
  induction frags as [|f fs IH]; intros off before after Hfree Hbefore Hoff; [reflexivity|].
  apply Forall_cons in Hfree as [Hf Hfs].
  cbn [fragment_offsets fmap list_fmap]. f_equal.
  - rewrite <- Hbefore, drop_app_length, fragment_bytes_cons, <- !app_assoc.
    cbn [app]. rewrite (cstring_app _ _ Hf). apply string_of_list_ascii_of_string.
  - specialize (IH (off + Z.of_nat (String.length f) + 1)
                   (before ++ list_ascii_of_string f ++ [NUL]) after Hfs).
    rewrite fragment_bytes_cons.
    replace (before ++ (list_ascii_of_string f ++ NUL :: fragment_bytes fs) ++ after)
      with ((before ++ list_ascii_of_string f ++ [NUL]) ++ fragment_bytes fs ++ after)
      by (rewrite <- !app_assoc; reflexivity).
    apply IH; [|lia].
    rewrite !length_app, list_ascii_length, Hbefore. cbn [length]. lia.
Qed.

(** X4. For one to seven fragments within the contract, none holding a
    NUL of its own, what every exec receives is, as strings: its path,
    -b, the fragments joined with a space after each, and then the
    fragments after the first, one by one. *)
Theorem Init_vector_strings w f1 rest :
  boot_fragments w = f1 :: rest ->
  boot_contract (f1 :: rest) ->
  (length rest < 7)%nat ->
  Forall nul_free (f1 :: rest) ->
  forall path argv,
    KernExec path argv ∈ trace (Init w) entry ->
    exists x,
      path = Lit x /\
      string_at (final (Init w) entry) <$> live_slots argv
      = Some <$> (x :: "-b" :: join_fragments (f1 :: rest) :: rest).
Proof.
  intros Hw Hc Hn Hfree path argv Hin.
  destruct (exists_last (l := f1 :: rest)) as (fs & f & Heq); [discriminate|].
  rewrite Heq in Hw, Hc, Hfree.
  pose proof Hfree as Hfree'.
  rewrite Forall_app, Forall_singleton in Hfree'. destruct Hfree' as [_ Hf].
  assert (Hk : strlen_in (list_ascii_of_string f ++ [NUL])
               = Some (Z.of_nat (String.length f)))
    by (rewrite (strlen_in_app _ [] Hf); now rewrite list_ascii_length).
  destruct (Init_run_some w fs f _ Hw Hc Hk) as (r & l & t & Hrun & Ht & Hbuf & Hbc & _).
  pose proof Hc as [_ Hb].
  set (len := Z.of_nat (length (fragment_bytes fs)) + Z.of_nat (String.length f) + 1) in *.
  assert (Hlen : Z.to_nat len = length (fragment_bytes (fs ++ [f])))
    by (rewrite fragment_bytes_snoc_length; subst len; lia).
  assert (Hrange : 0 <= len <= 100)
    by (rewrite fragment_bytes_snoc_length in Hb; subst len; lia).
  unfold trace in Hin. unfold final. rewrite Hrun in *. cbn [fst snd] in *.
  apply elem_of_app in Hin as [Hin|Hin]; [destruct (argument_events_no_exec _ _ _ _ Hin)|].
  destruct (exec_event_KernExec _ _ _ _ Ht Hin) as [[x ->] ->].
  exists x. split; [reflexivity|].
  rewrite <- Heq, (vector_tail f1 rest len Hn).
  cbn [live_slots]. destruct (decide (Lit x = NIL)) as [Hx|_]; [discriminate Hx|].
  destruct (decide (Lit "-b" = NIL)) as [Hx|_]; [discriminate Hx|].
  destruct (decide (BootCommand = NIL)) as [Hx|_]; [discriminate Hx|].
  rewrite live_slots_app.
  2:{ intros Hnil. apply list_elem_of_fmap in Hnil as (o & Ho & _). discriminate Ho. }
  cbn [fmap list_fmap string_at]. do 2 f_equal. f_equal; [f_equal|].
  - rewrite Hbc, (command_line_string _ _ Hrange), Hlen.
    unfold frame_after_GetBootArgs. cbn [argBuffer].
    rewrite take_app_length, (nul_to_space_fragment_bytes _ Hfree), <- Heq.
    now rewrite string_of_list_ascii_of_string.
  - assert (Hrest : Forall nul_free rest).
    { rewrite <- Heq in Hfree. now apply Forall_cons in Hfree as [_ ?]. }
    rewrite <- (strings_at_offsets rest (0 + Z.of_nat (String.length f1) + 1)
                  (list_ascii_of_string f1 ++ [NUL])
                  (replicate (100 - length (fragment_bytes (f1 :: rest))) NUL) Hrest)
      at 2; [|rewrite length_app, list_ascii_length; cbn [length]; lia|lia].
    rewrite <- !list_fmap_compose. apply list_fmap_ext. intros i o _.
    unfold compose, string_at. rewrite Hbuf.
    unfold frame_after_vector, frame_after_GetBootArgs. cbn [argBuffer].
    rewrite <- Heq, fragment_bytes_cons, <- !app_assoc. reflexivity.
Qed.

Lemma Init_vector_strings_witness :
  boot_fragments world_two_fragments = "root=/dev/sda1" :: ["quiet"] /\
  boot_contract ("root=/dev/sda1" :: ["quiet"]) /\
  (length ["quiet"] < 7)%nat /\
  Forall nul_free ("root=/dev/sda1" :: ["quiet"]) /\
  forall path argv,
    KernExec path argv ∈ trace (Init world_two_fragments) entry ->
    exists x,
      path = Lit x /\
      string_at (final (Init world_two_fragments) entry) <$> live_slots argv
      = Some <$> [x; "-b"; "root=/dev/sda1 quiet "; "quiet"].
Proof.
  assert (Hc : boot_contract ("root=/dev/sda1" :: ["quiet"]))
    by (split; vm_compute; lia).
  assert (Hn : (length ["quiet"] < 7)%nat) by (cbn; lia).
  assert (Hfree : Forall nul_free ("root=/dev/sda1" :: ["quiet"])).
  { repeat constructor; unfold nul_free; intros H;
      repeat (apply elem_of_cons in H as [H|H]; [discriminate H|]);
      now apply elem_of_nil in H. }
  split; [reflexivity|]. split; [exact Hc|]. split; [exact Hn|]. split; [exact Hfree|].
  exact (Init_vector_strings world_two_fragments "root=/dev/sda1" ["quiet"]
           eq_refl Hc Hn Hfree).
Defined.

(** ** How [Init] ends *)

(** After a complete argument phase, the run of [Init] for each outcome
    of the execs. *)
Lemma Init_run_cases w :
  boot_contract (boot_fragments w) ->
  (length (boot_fragments w) < 8)%nat ->
  exists tl buf bc p t1,
    Forall (fun e => is_argument_event e = true) t1 /\
    Init w entry
    = match main_AltInit w, Proc_KernExec_result w (Lit (INIT w)) with
      | None, Some s2 =>
          (Halt (Exited 1),
           {| initArgs := Lit (INIT w) :: tl; argBuffer := buf; bootCommand := bc; ptr := p |},
           t1 ++ Open (INIT w) :: open_complaint w
              ++ [Store A_initArgs 0; KernExec (Lit (INIT w)) (Lit (INIT w) :: tl);
                  CouldNotExec (Lit (INIT w)) s2; Exit 1])
      | None, None =>
          (Halt Replaced,
           {| initArgs := Lit (INIT w) :: tl; argBuffer := buf; bootCommand := bc; ptr := p |},
           t1 ++ Open (INIT w) :: open_complaint w
              ++ [Store A_initArgs 0; KernExec (Lit (INIT w)) (Lit (INIT w) :: tl)])
      | Some alt, canonical =>
          match Proc_KernExec_result w (Lit alt), canonical with
          | None, _ =>
              (Halt Replaced,
               {| initArgs := Lit alt :: tl; argBuffer := buf; bootCommand := bc; ptr := p |},
               t1 ++ [Store A_initArgs 0; Execing (Lit alt);
                      KernExec (Lit alt) (Lit alt :: tl)])
          | Some s1, Some s2 =>
              (Halt (Exited 1),
               {| initArgs := Lit (INIT w) :: tl; argBuffer := buf; bootCommand := bc; ptr := p |},
               t1 ++ [Store A_initArgs 0; Execing (Lit alt);
                      KernExec (Lit alt) (Lit alt :: tl); CouldNotExec (Lit alt) s1]
                  ++ Open (INIT w) :: open_complaint w
                  ++ [Store A_initArgs 0; KernExec (Lit (INIT w)) (Lit (INIT w) :: tl);
                      CouldNotExec (Lit (INIT w)) s2; Exit 1])
          | Some s1, None =>
              (Halt Replaced,
               {| initArgs := Lit (INIT w) :: tl; argBuffer := buf; bootCommand := bc; ptr := p |},
               t1 ++ [Store A_initArgs 0; Execing (Lit alt);
                      KernExec (Lit alt) (Lit alt :: tl); CouldNotExec (Lit alt) s1]
                  ++ Open (INIT w) :: open_complaint w
                  ++ [Store A_initArgs 0; KernExec (Lit (INIT w)) (Lit (INIT w) :: tl)])
          end
      end.
Proof.
  intros Hc Hn.
  destruct (Init_arguments_completes w Hc Hn) as (a0 & tl & buf & bc & p & t1 & Hargs & Ht1).
  exists tl, buf, bc, p, t1. split; [exact Ht1|].
  unfold Init, Init_exec.
  destruct (main_AltInit w) as [alt|] eqn:Hcfg;
    [destruct (Proc_KernExec_result w (Lit alt)) as [s1|] eqn:H1|];
    destruct (Proc_KernExec_result w (Lit (INIT w))) as [s2|] eqn:H2.
  - eapply bind_Ret; [exact Hargs|].
    eapply bind_Ret; [apply (Init_alternate_fails _ _ _ _ _ _ _ _ Hcfg H1)|].
    apply (Init_canonical_fails _ _ _ _ _ _ _ H2).
  - eapply bind_Ret; [exact Hargs|].
    eapply bind_Ret; [apply (Init_alternate_fails _ _ _ _ _ _ _ _ Hcfg H1)|].
    apply (Init_canonical_replaces _ _ _ _ _ _ H2).
  - eapply bind_Ret; [exact Hargs|].
    eapply bind_Halt. apply (Init_alternate_replaces _ _ _ _ _ _ _ Hcfg H1).
  - eapply bind_Ret; [exact Hargs|].
    eapply bind_Halt. apply (Init_alternate_replaces _ _ _ _ _ _ _ Hcfg H1).
  - eapply bind_Ret; [exact Hargs|].
    eapply bind_Ret_quiet; [apply (Init_alternate_none _ _ _ _ _ _ Hcfg)|].
    apply (Init_canonical_fails _ _ _ _ _ _ _ H2).
  - eapply bind_Ret; [exact Hargs|].
    eapply bind_Ret_quiet; [apply (Init_alternate_none _ _ _ _ _ _ Hcfg)|].
    apply (Init_canonical_replaces _ _ _ _ _ _ H2).
Qed.

Lemma exec_paths_app t1 t2 : exec_paths (t1 ++ t2) = exec_paths t1 ++ exec_paths t2.
Proof.
  induction t1 as [|e t1 IH]; [reflexivity|].
  destruct e; cbn [app exec_paths]; rewrite IH; reflexivity.
Qed.

Lemma opened_app t1 t2 : opened (t1 ++ t2) = opened t1 ++ opened t2.
Proof.
  induction t1 as [|e t1 IH]; [reflexivity|].
  destruct e; cbn [app opened]; rewrite IH; reflexivity.
Qed.

Lemma argument_events_quiet t :
  Forall (fun e => is_argument_event e = true) t ->
  exec_paths t = [] /\ opened t = [] /\ forall s, Exit s ∉ t.
Proof.
  induction 1 as [|e t He _ (IH1 & IH2 & IH3)].
  - repeat split. intros s Hs. now apply elem_of_nil in Hs.
  - destruct e; try discriminate He; cbn [exec_paths opened];
      (split; [exact IH1|split; [exact IH2|]]);
      intros s Hs; apply elem_of_cons in Hs as [Hs|Hs];
      solve [discriminate Hs | exact (IH3 s Hs)].
Qed.

Lemma open_complaint_quiet w :
  exec_paths (open_complaint w) = [] /\ opened (open_complaint w) = [] /\
  forall s, Exit s ∉ open_complaint w.
Proof.
  unfold open_complaint. destruct (Fs_Open_result w (INIT w) =? SUCCESS).
  - repeat split. intros s Hs. now apply elem_of_nil in Hs.
  - repeat split. intros s Hs.
    apply elem_of_cons in Hs as [Hs|Hs]; [discriminate Hs|now apply elem_of_nil in Hs].
Qed.

Ltac split_membership Hs :=
  repeat first [ rewrite elem_of_app in Hs
               | rewrite elem_of_cons in Hs
               | rewrite elem_of_nil in Hs ];
  repeat match type of Hs with _ \/ _ => destruct Hs as [Hs|Hs] end.

(** X5. When the argument phase has run to its end (boot arguments
    within the contract, fewer than eight fragments), [Init] ends in one
    of two ways: in [Proc_Exit(1)] exactly when every exec it could
    attempt fails, that of the alternate init if one is configured and
    that of INIT, and otherwise with its image replaced.  It never calls
    [Proc_Exit] with another status. *)
Theorem Init_outcome w :
  boot_contract (boot_fragments w) ->
  (length (boot_fragments w) < 8)%nat ->
  (result (Init w) entry = Halt (Exited 1) <->
   (forall alt, main_AltInit w = Some alt -> Proc_KernExec_result w (Lit alt) <> None) /\
   Proc_KernExec_result w (Lit (INIT w)) <> None) /\
  (result (Init w) entry <> Halt (Exited 1) -> result (Init w) entry = Halt Replaced) /\
  (forall s, Exit s ∈ trace (Init w) entry -> s = 1).
Proof.
  intros Hc Hn.
  destruct (Init_run_cases w Hc Hn) as (tl & buf & bc & p & t1 & Ht1 & Hrun).
  destruct (argument_events_quiet _ Ht1) as (_ & _ & Hq1).
  destruct (open_complaint_quiet w) as (_ & _ & Hq2).
  unfold result, trace. rewrite Hrun. clear Hrun.
  split; [|split].
  - destruct (main_AltInit w) as [alt|] eqn:Hcfg;
      [destruct (Proc_KernExec_result w (Lit alt)) as [s1|] eqn:H1|];
      destruct (Proc_KernExec_result w (Lit (INIT w))) as [s2|] eqn:H2;
      cbn [fst]; split.
    + intros _. split; [|discriminate].
      intros a Ha. injection Ha as <-. rewrite H1. discriminate.
    + reflexivity.
    + discriminate.
    + intros [_ Hi]. now destruct Hi.
    + discriminate.
    + intros [Ha _]. destruct (Ha alt eq_refl H1).
    + discriminate.
    + intros [Ha _]. destruct (Ha alt eq_refl H1).
    + intros _. split; [|discriminate]. intros a Ha. discriminate Ha.
    + reflexivity.
    + discriminate.
    + intros [_ Hi]. now destruct Hi.
  - destruct (main_AltInit w) as [alt|];
      [destruct (Proc_KernExec_result w (Lit alt)) as [s1|]|];
      destruct (Proc_KernExec_result w (Lit (INIT w))) as [s2|];
      cbn [fst]; intros Hne; first [reflexivity | now destruct Hne].
  - destruct (main_AltInit w) as [alt|];
      [destruct (Proc_KernExec_result w (Lit alt)) as [s1|]|];
      destruct (Proc_KernExec_result w (Lit (INIT w))) as [s2|];
      cbn [snd]; intros s Hs; split_membership Hs;
      first [ discriminate Hs | now destruct (Hq1 s) | now destruct (Hq2 s)
            | now injection Hs | now destruct Hs ].
Qed.

Lemma Init_outcome_witness :
  boot_contract (boot_fragments world_two_fragments) /\
  (length (boot_fragments world_two_fragments) < 8)%nat /\
  result (Init world_two_fragments) entry = Halt (Exited 1).
Proof.
  assert (Hc : boot_contract (boot_fragments world_two_fragments))
    by (split; vm_compute; lia).
  assert (Hn : (length (boot_fragments world_two_fragments) < 8)%nat) by (cbn; lia).
  split; [exact Hc|]. split; [exact Hn|].
  destruct (Init_outcome world_two_fragments Hc Hn) as [[_ H] _].
  apply H. split; [intros alt _|]; discriminate.
Defined.

(** X6. When the argument phase has run to its end, the execs [Init]
    attempts are: INIT alone when no alternate init is configured; the
    alternate init alone when its exec succeeds; the alternate init and
    then INIT when it fails.  [Fs_Open] is called once, on INIT, before
    the exec of INIT, and not at all when the alternate exec succeeded. *)
Theorem Init_exec_attempts w :
  boot_contract (boot_fragments w) ->
  (length (boot_fragments w) < 8)%nat ->
  exec_paths (trace (Init w) entry)
  = match main_AltInit w with
    | None => [Lit (INIT w)]
    | Some alt =>
        match Proc_KernExec_result w (Lit alt) with
        | None => [Lit alt]
        | Some _ => [Lit alt; Lit (INIT w)]
        end
    end /\
  opened (trace (Init w) entry)
  = match main_AltInit w with
    | None => [INIT w]
    | Some alt =>
        match Proc_KernExec_result w (Lit alt) with
        | None => []
        | Some _ => [INIT w]
        end
    end.
Proof.
  intros Hc Hn.
  destruct (Init_run_cases w Hc Hn) as (tl & buf & bc & p & t1 & Ht1 & Hrun).
  destruct (argument_events_quiet _ Ht1) as (Hp1 & Ho1 & _).
  destruct (open_complaint_quiet w) as (Hp2 & Ho2 & _).
  unfold trace. rewrite Hrun. clear Hrun.
  destruct (main_AltInit w) as [alt|] eqn:Hcfg;
    [destruct (Proc_KernExec_result w (Lit alt)) as [s1|] eqn:H1|];
    destruct (Proc_KernExec_result w (Lit (INIT w))) as [s2|] eqn:H2;
    cbn [fst snd];
    rewrite ?exec_paths_app, ?opened_app, Hp1, Ho1;
    cbn [exec_paths opened app];
    rewrite ?exec_paths_app, ?opened_app, ?Hp2, ?Ho2;
    split; reflexivity.
Qed.

Lemma Init_exec_attempts_witness :
  boot_contract (boot_fragments world_two_fragments) /\
  (length (boot_fragments world_two_fragments) < 8)%nat /\
  exec_paths (trace (Init world_two_fragments) entry)
  = [Lit "cmds/altinit"; Lit "cmds/initsprite"] /\
  opened (trace (Init world_two_fragments) entry) = ["cmds/initsprite"].
Proof.
  assert (Hc : boot_contract (boot_fragments world_two_fragments))
    by (split; vm_compute; lia).
  assert (Hn : (length (boot_fragments world_two_fragments) < 8)%nat) by (cbn; lia).
  split; [exact Hc|]. split; [exact Hn|].
  exact (Init_exec_attempts world_two_fragments Hc Hn).
Defined.

(** ** The open check *)

Lemma bind_same_but_complaints {A B} (m : M locals A) (k k' : A -> M locals B) l :
  (forall a l1, same_but_complaints (k a l1) (k' a l1)) ->
  same_but_complaints ((m ≫= k) l) ((m ≫= k') l).
Proof.
  intros Hk. unfold mbind, M_bind, bind.
  destruct (m l) as [[[a|h] l1] t1]; [|split; reflexivity].
  specialize (Hk a l1).
  destruct (k a l1) as [[r2 l2] t2], (k' a l1) as [[r2' l2'] t2'].
  destruct Hk as [Hr Ht]. cbn [fst snd] in Hr, Ht. injection Hr as -> ->.
  split; [reflexivity|]. cbn [snd].
  now rewrite !List.filter_app, Ht.
Qed.

(** The open check and what follows it: the status read from [Fs_Open]
    decides one line of the log and nothing else. *)
Lemma Init_canonical_split w l :
  exists r2 l2 t2,
    Init_canonical w l = (r2, l2, Open (INIT w) :: open_complaint w ++ t2) /\
    forall r,
      Init_canonical (set_Fs_Open_result r w) l
      = (r2, l2, Open (INIT w) :: open_complaint (set_Fs_Open_result r w) ++ t2).
Proof.
  destruct ((store_initArgs 0 (Lit (INIT w)) ≫= fun _ =>
             Proc_KernExec w ≫= fun status =>
             load_initArgs 0 ≫= fun p =>
             emit (CouldNotExec p status) ≫= fun _ => (Proc_Exit 1 : M locals unit)) l)
    as [[r2 l2] t2] eqn:Hrest.
  exists r2, l2, t2. split; [|intros r]; unfold Init_canonical.
  - eapply bind_Ret_one; [reflexivity|].
    eapply bind_Ret; [|exact Hrest].
    unfold open_complaint. destruct (Fs_Open_result w (INIT w) =? SUCCESS); reflexivity.
  - eapply bind_Ret_one; [reflexivity|].
    eapply bind_Ret; [|exact Hrest].
    unfold open_complaint. cbn [set_Fs_Open_result Fs_Open_result INIT].
    destruct (r (INIT w) =? SUCCESS); reflexivity.
Qed.

Lemma open_complaint_filtered w :
  List.filter (fun e => negb (is_CantOpen e)) (open_complaint w) = [].
Proof.
  unfold open_complaint. now destruct (Fs_Open_result w (INIT w) =? SUCCESS).
Qed.

(** X7. The status [Fs_Open] returns for INIT is advisory: with any
    other status [Init] ends in the same way, leaves the same frame and
    emits the same events, the line the open check prints apart. *)
Theorem Init_open_check_advisory w r :
  result (Init (set_Fs_Open_result r w)) entry = result (Init w) entry /\
  final (Init (set_Fs_Open_result r w)) entry = final (Init w) entry /\
  List.filter (fun e => negb (is_CantOpen e)) (trace (Init (set_Fs_Open_result r w)) entry)
  = List.filter (fun e => negb (is_CantOpen e)) (trace (Init w) entry).
Proof.
  assert (H : same_but_complaints (Init (set_Fs_Open_result r w) entry) (Init w entry)).
  { unfold Init, Init_exec.
    change (Init_arguments (set_Fs_Open_result r w)) with (Init_arguments w).
    apply bind_same_but_complaints. intros _ l1.
    change (Init_alternate (set_Fs_Open_result r w)) with (Init_alternate w).
    apply bind_same_but_complaints. intros _ l2.
    destruct (Init_canonical_split w l2) as (r2 & l3 & t2 & Hw & Hr).
    rewrite Hw, (Hr r). split; [reflexivity|]. cbn [snd].
    cbn [List.filter is_CantOpen negb].
    now rewrite !List.filter_app, !open_complaint_filtered. }
  destruct H as [Hrl Ht]. unfold result, final, trace.
  now rewrite Hrl, Ht.
Qed.

(** ** More on the order of [main] *)

Lemma called_app t1 t2 : called (t1 ++ t2) = called t1 ++ called t2.
Proof.
  induction t1 as [|e t1 IH]; [reflexivity|].
  destruct e; cbn [app called]; rewrite IH; reflexivity.
Qed.

Lemma called_servers n : called (replicate n CreateServer) = [].
Proof. induction n as [|n IH]; [reflexivity|exact IH]. Qed.

Lemma occurrences_not_called f tr :
  f ∉ called tr -> occurrences (Call f) tr = 0%nat.
Proof.
  induction tr as [|e tr IH]; intros Hf; [reflexivity|].
  cbn [occurrences].
  destruct e; cbn [called] in Hf;
    try (destruct (decide (_ = Call f)) as [Heq|_]; [discriminate Heq|]; now apply IH).
  destruct (decide (Call f0 = Call f)) as [Heq|_].
  - injection Heq as ->. exfalso. apply Hf. left.
  - apply IH. intros Hin. apply Hf. now right.
Qed.

Lemma occurrences_called_once f tr :
  NoDup (called tr) -> f ∈ called tr -> occurrences (Call f) tr = 1%nat.
Proof.
  induction tr as [|e tr IH]; intros Hnd Hf; [now apply elem_of_nil in Hf|].
  cbn [occurrences].
  destruct e; cbn [called] in Hnd, Hf;
    try (destruct (decide (_ = Call f)) as [Heq|_]; [discriminate Heq|]; now apply IH).
  apply NoDup_cons in Hnd as [Hfresh Hnd].
  destruct (decide (Call f0 = Call f)) as [Heq|Hne].
  - injection Heq as ->. now rewrite (occurrences_not_called _ _ Hfresh).
  - apply elem_of_cons in Hf as [->|Hf]; [congruence|]. now apply IH.
Qed.

(** X8. Whatever the configuration, [main] makes 36 plain calls [f()],
    from Main_InitVars to Main_HookRoutine, and each of the routines so
    called is called exactly once: nothing is initialised twice and
    nothing is retried.  (The routines [main] calls with arguments,
    Proc_NewProc, Proc_CallFunc, Rpc_CreateServer and the printfs, are
    other events and are not counted here.) *)
Theorem main_calls_once w :
  length (called (trace (main w) tt)) = 36%nat /\
  NoDup (called (trace (main w) tt)) /\
  forall f, f ∈ called (trace (main w) tt) ->
            occurrences (Call f) (trace (main w) tt) = 1%nat.
Proof.
  assert (Hnd : NoDup (called (trace (main w) tt))).
  { rewrite main_trace, !called_app, called_servers.
    apply (bool_decide_unpack _). vm_compute. exact I. }
  split; [|split; [exact Hnd|]].
  - rewrite main_trace, !called_app, called_servers. reflexivity.
  - intros f. now apply occurrences_called_once.
Qed.

(** X9. [main] uses printf only after [Sched_Init] has returned; what it
    prints before goes through [Mach_MonPrintf]. *)
Theorem main_printf_after_Sched_Init w :
  precedes_every (Call "Sched_Init") is_Printf (trace (main w) tt).
Proof.
  rewrite main_trace. unfold main_before_servers. cbn [app].
  exists 13%nat. split; [reflexivity|].
  intros k e Hk Hp. do 14 (not_started Hk Hp). lia.
Qed.

(** X10. The process that runs [Init] is the last thing [main] starts:
    it is created once, after every entry point has been called and
    every other process started, and [main] then only waits, prints its
    farewell and exits. *)
Theorem main_starts_Init_last w :
  exists t,
    trace (main w) tt
    = t ++ [NewProc "Init" "Init"; WaitTime "time_OneYear";
            MonPrintf "Leaving main()"; Exit 0] /\
    occurrences (NewProc "Init" "Init") t = 0%nat /\
    called t = called (trace (main w) tt) /\
    List.filter starts_process (trace (main w) tt)
    = List.filter starts_process t ++ [NewProc "Init" "Init"].
Proof.
  exists (main_before_servers
          ++ replicate (Z.to_nat (main_NumRpcServers w)) CreateServer
          ++ [NewProc "Rpc_Daemon" "Rpc_Daemon";
              ServerProcCreate
                (to_int (FSCACHE_MAX_CLEANER_PROCS w + VM_MAX_PAGE_OUT_PROCS w));
              NewProc "Recov_Proc" "Recov_Proc"; Call "Proc_MigInit";
              Call "Main_HookRoutine"; Printf "MEMORY %d bytes allocated for kernel"]).
  rewrite main_trace. split; [|split; [|split]].
  - unfold main_after_servers. rewrite <- !app_assoc. reflexivity.
  - rewrite !occurrences_app, occurrences_replicate. reflexivity.
  - rewrite !called_app. reflexivity.
  - rewrite !List.filter_app. unfold main_after_servers. cbn [List.filter starts_process].
    rewrite <- !app_assoc. reflexivity.
Qed.
